(** * GeminiService: a shallow embedding of src/services/geminiService.ts

    The service wraps one remote call, [genAI.models.generateContent], in
    three operations: [generateImage], [editImage] and [segmentImage].  Each
    builds a content list, awaits the provider, reads the response and, on
    failure, logs the caught error with [console.error] before throwing an
    [Error] of its own.

    The embedding keeps that shape.  The provider and the two runtime
    built-ins the code relies on ([JSON.parse] and the number-to-string
    conversion of template literals) are parameters.  An operation returns
    the lines it wrote to the console together with its completion: a
    returned value or a thrown exception. *)

From Stdlib Require Import String Ascii List Bool Arith Lia.
From Stdlib Require Import Floats.PrimFloat.
Import ListNotations.

Local Open Scope list_scope.
Local Open Scope string_scope.

(** ** JavaScript values

    The caught [error] has type [any], so it is modelled as an arbitrary
    plain value: primitives, arrays and objects.  An object is its table of
    properties in the order they were written; a lookup returns the first
    binding of the key.  Numbers are IEEE-754 doubles. *)

#[warnings="-register-all"]
Inductive JsValue : Type :=
| JUndefined
| JNull
| JBool (b : bool)
| JNum (n : float)
| JStr (s : string)
| JArr (elems : list JsValue)
| JObj (props : list (string * JsValue)).

(** Line feed and double quote, which a string literal cannot spell. *)
Definition LF : string := String "010" EmptyString.
Definition DQ : string := String "034" EmptyString.

(** [ToBoolean]: [undefined], [null], [false], [0], [-0], [NaN] and the
    empty string are falsy, everything else is truthy. *)
Definition truthy_string (s : string) : bool :=
  match s with
  | EmptyString => false
  | String _ _ => true
  end.

Definition truthy (v : JsValue) : bool :=
  match v with
  | JUndefined | JNull => false
  | JBool b => b
  | JNum n => negb (PrimFloat.eqb n 0%float || PrimFloat.is_nan n)
  | JStr s => truthy_string s
  | JArr _ | JObj _ => true
  end.

(** Truthiness of an optional string field ([field?: string]). *)
Definition truthy_opt (o : option string) : bool :=
  match o with
  | Some s => truthy_string s
  | None => false
  end.

Fixpoint lookup_prop (key : string) (props : list (string * JsValue)) : JsValue :=
  match props with
  | [] => JUndefined
  | (k, v) :: rest => if String.eqb k key then v else lookup_prop key rest
  end.

(** [v?.key] for one of the keys the service reads ([error], [code],
    [message]): [undefined] when [v] is [undefined] or [null], and also when
    [v] is a primitive or an array, none of which carries such a property. *)
Definition get (v : JsValue) (key : string) : JsValue :=
  match v with
  | JObj props => lookup_prop key props
  | _ => JUndefined
  end.

(** [v === n] for a number literal [n]: only a number can be strictly equal
    to it, and numbers compare as doubles. *)
Definition strict_equals_number (v : JsValue) (n : float) : bool :=
  match v with
  | JNum m => PrimFloat.eqb m n
  | _ => false
  end.

(** [hay.includes(needle)] on strings: [needle] occurs in [hay] at some
    position. *)
Fixpoint includes (hay needle : string) : bool :=
  String.prefix needle hay ||
  match hay with
  | EmptyString => false
  | String _ rest => includes rest needle
  end.

(** SameValueZero against a string, as [Array.prototype.includes] uses it. *)
Definition same_value_zero_string (needle : string) (v : JsValue) : bool :=
  match v with
  | JStr s => String.eqb s needle
  | _ => false
  end.

(** ** Completions and exceptions *)

(** What the service can throw or see thrown. *)
Inductive Exn : Type :=
| ThrownValue (v : JsValue)      (* a value thrown by the provider or by JSON.parse *)
| NewError (message : string)    (* [new Error(message)] *)
| TypeErrorNotAFunction          (* calling a property that is not a function *)
| TypeErrorNotPrimitive.         (* converting an object that has no callable
                                    [toString] to a string *)

Inductive Completion (A : Type) : Type :=
| Return (a : A)
| Throw (e : Exn).

Arguments Return {A} a.
Arguments Throw {A} e.

(** [message.includes('quota')] where [message] is truthy: the string
    method on a string, the array method on an array, and a TypeError on
    any other value, whose [includes] is not a function. *)
Definition call_includes (receiver : JsValue) (needle : string) : Completion bool :=
  match receiver with
  | JStr s => Return (includes s needle)
  | JArr elems => Return (existsb (same_value_zero_string needle) elems)
  | _ => Throw TypeErrorNotAFunction
  end.

(** Whether the table of an object has the key, as an own property. *)
Definition has_own (key : string) (props : list (string * JsValue)) : bool :=
  existsb (fun entry => String.eqb (fst entry) key) props.

(** [ToString] as a template literal applies it; [None] stands for the
    TypeError it throws when an object cannot be converted to a primitive.

    An object is converted by its [toString] method.  A plain object
    inherits the one of [Object.prototype], which prints [[object Object]];
    but a [toString] property of its own shadows it, and since no value of
    [JsValue] is a function that property is not callable: the conversion
    then tries [valueOf], which gives back the object, and throws.  An array
    prints its elements joined by commas, [undefined] and [null] elements
    printed as nothing, the others converted in turn, from left to right. *)
Section ToString.

Variable Number_toString : float -> string.

Fixpoint ToString (v : JsValue) : option string :=
  match v with
  | JUndefined => Some "undefined"
  | JNull => Some "null"
  | JBool true => Some "true"
  | JBool false => Some "false"
  | JNum n => Some (Number_toString n)
  | JStr s => Some s
  | JArr elems =>
      (fix join (l : list JsValue) : option string :=
         match l with
         | [] => Some ""
         | x :: rest =>
             let shown :=
               match x with
               | JUndefined | JNull => Some ""
               | _ => ToString x
               end in
             match shown with
             | None => None
             | Some first =>
                 match rest with
                 | [] => Some first
                 | _ :: _ =>
                     match join rest with
                     | Some others => Some (first ++ "," ++ others)
                     | None => None
                     end
                 end
             end
         end) elems
  | JObj props => if has_own "toString" props then None else Some "[object Object]"
  end.

(** [throw new Error(`prefix${message}`)]: the exception that leaves the
    statement, the new Error or the TypeError of the conversion. *)
Definition throw_template (prefix : string) (message : JsValue) : Exn :=
  match ToString message with
  | Some printed => NewError (prefix ++ printed)
  | None => TypeErrorNotPrimitive
  end.

End ToString.

(** ** Requests *)

Module GenerationRequest.
Record t : Type := {
  prompt : string;
  referenceImages : option (list string);
  temperature : option float;
  seed : option float
}.
End GenerationRequest.

Module EditRequest.
Record t : Type := {
  instruction : string;
  originalImage : string;
  referenceImages : option (list string);
  maskImage : option string;
  temperature : option float;
  seed : option float
}.
End EditRequest.

Module SegmentationRequest.
Record t : Type := {
  image : string;
  query : string
}.
End SegmentationRequest.

(** ** The provider boundary

    Content parts are the SDK's [Part] objects, in requests and in
    responses alike: every field is optional. *)

Record Blob : Type := {
  mimeType : option string;
  data : option string
}.

Record Part : Type := {
  text : option string;
  inlineData : option Blob
}.

Record Content : Type := {
  parts : option (list Part)
}.

Record Candidate : Type := {
  content : option Content
}.

Record GenerateContentResponse : Type := {
  candidates : option (list Candidate)
}.

Record GenerateContentParameters : Type := {
  model : string;
  contents : list Part
}.

(** The awaited promise either resolves to a response or rejects with a
    value of any shape. *)
Inductive ProviderOutcome : Type :=
| Resolved (response : GenerateContentResponse)
| Rejected (error : JsValue).

(** [{ text: t }] *)
Definition text_part (t : string) : Part :=
  {| text := Some t; inlineData := None |}.

(** [{ inlineData: { mimeType: "image/png", data: image } }] *)
Definition image_part (image : string) : Part :=
  {| text := None;
     inlineData := Some {| mimeType := Some "image/png"; data := Some image |} |}.

Definition MODEL : string := "gemini-2.5-flash-image-preview".

(** [request.referenceImages.forEach(image => contents.push(...))], guarded
    by [request.referenceImages && request.referenceImages.length > 0]. *)
Definition push_reference_images
    (referenceImages : option (list string)) (contents : list Part) : list Part :=
  match referenceImages with
  | Some images =>
      if (0 <? List.length images)%nat
      then fold_left (fun acc image => (acc ++ [image_part image])%list) images contents
      else contents
  | None => contents
  end.

(** [response.candidates?.[0]?.content?.parts] *)
Definition first_candidate_parts (response : GenerateContentResponse) : option (list Part) :=
  match candidates response with
  | Some (candidate :: _) =>
      match content candidate with
      | Some c => parts c
      | None => None
      end
  | _ => None
  end.

(** [part.inlineData?.data] *)
Definition inline_data (part : Part) : option string :=
  match inlineData part with
  | Some blob => data blob
  | None => None
  end.

(** The extraction loop shared by [generateImage] and [editImage]:
    [images.push(part.inlineData.data)] for every part whose
    [part.inlineData?.data] is truthy. *)
Definition collect_images (response : GenerateContentResponse) : list string :=
  match first_candidate_parts response with
  | Some ps =>
      fold_left
        (fun images part =>
           match inline_data part with
           | Some d => if truthy_string d then (images ++ [d])%list else images
           | None => images
           end)
        ps []
  | None => []
  end.

(** ** Error messages *)

Definition RATE_LIMIT_MESSAGE : string :=
  "Rate limit exceeded. Please wait a few minutes before trying again, or upgrade your Google AI Studio plan for higher quotas.".
Definition GENERATE_FAILED_MESSAGE : string := "Failed to generate image. Please try again.".
Definition EDIT_FAILED_MESSAGE : string := "Failed to edit image. Please try again.".
Definition SEGMENT_FAILED_MESSAGE : string := "Failed to segment image. Please try again.".
Definition NO_RESPONSE_TEXT_MESSAGE : string := "No response text received from API".

(** The spec's names for the errors the service throws. *)
Definition RateLimitExceeded : Exn := NewError RATE_LIMIT_MESSAGE.
Definition ApiError (message : string) : Exn := NewError ("API Error: " ++ message).
Definition GenericError (message : string) : Exn := NewError ("Error: " ++ message).
Definition UnknownError : Exn := NewError GENERATE_FAILED_MESSAGE.
Definition NoResponseText : Exn := NewError NO_RESPONSE_TEXT_MESSAGE.

(** A line written by [console.error(label, error)]. *)
Definition LogEntry : Type := (string * Exn)%type.

(** ** Prompt templates *)

(** The mask-handling clause, and the text [maskInstruction] takes when the
    request has a mask: the clause after a blank line. *)
Definition MASK_CLAUSE : string :=
  "IMPORTANT: Apply changes ONLY where the mask image shows white pixels (value 255). Leave all other areas completely unchanged. Respect the mask boundaries precisely and maintain seamless blending at the edges.".

Definition MASK_INSTRUCTION : string := LF ++ LF ++ MASK_CLAUSE.

Definition EDIT_PROMPT_HEAD : string :=
  "Edit this image according to the following instruction: ".

Definition EDIT_PROMPT_BODY : string :=
  LF ++ LF ++ "Maintain the original image's lighting, perspective, and overall composition. Make the changes look natural and seamlessly integrated.".

Definition EDIT_PROMPT_TAIL : string :=
  LF ++ LF ++ "Preserve image quality and ensure the edit looks professional and realistic.".

(** [buildEditPrompt]: the template literal, with [maskInstruction] chosen
    by the truthiness of [request.maskImage]. *)
Definition buildEditPrompt (request : EditRequest.t) : string :=
  let maskInstruction :=
    if truthy_opt (EditRequest.maskImage request) then MASK_INSTRUCTION else "" in
  EDIT_PROMPT_HEAD ++ EditRequest.instruction request
    ++ EDIT_PROMPT_BODY ++ maskInstruction ++ EDIT_PROMPT_TAIL.

Definition SEGMENT_PROMPT_HEAD : string :=
  "Analyze this image and create a segmentation mask for: ".

Definition SEGMENT_PROMPT_TAIL : string :=
  LF ++ LF ++ "Return a JSON object with this exact structure:" ++ LF
  ++ "{" ++ LF
  ++ "  " ++ DQ ++ "masks" ++ DQ ++ ": [" ++ LF
  ++ "    {" ++ LF
  ++ "      " ++ DQ ++ "label" ++ DQ ++ ": " ++ DQ ++ "description of the segmented object" ++ DQ ++ "," ++ LF
  ++ "      " ++ DQ ++ "box_2d" ++ DQ ++ ": [x, y, width, height]," ++ LF
  ++ "      " ++ DQ ++ "mask" ++ DQ ++ ": " ++ DQ ++ "base64-encoded binary mask image" ++ DQ ++ LF
  ++ "    }" ++ LF
  ++ "  ]" ++ LF
  ++ "}" ++ LF ++ LF
  ++ "Only segment the specific object or region requested. The mask should be a binary PNG where white pixels (255) indicate the selected region and black pixels (0) indicate the background.".

Definition buildSegmentPrompt (request : SegmentationRequest.t) : string :=
  SEGMENT_PROMPT_HEAD ++ SegmentationRequest.query request ++ SEGMENT_PROMPT_TAIL.

(** ** The service *)

Section GeminiService.

(** Number-to-string conversion of the runtime. *)
Variable Number_toString : float -> string.

(** [JSON.parse]: the parsed value, or the SyntaxError it throws. *)
Variable JSON_parse : string -> Completion JsValue.

(** [genAI.models.generateContent], awaited. *)
Variable generateContent : GenerateContentParameters -> ProviderOutcome.

(** *** generateImage *)

Definition generateImage_contents (request : GenerationRequest.t) : list Part :=
  push_reference_images (GenerationRequest.referenceImages request)
    [text_part (GenerationRequest.prompt request)].

Definition generateImage_parameters (request : GenerationRequest.t) : GenerateContentParameters :=
  {| model := MODEL; contents := generateImage_contents request |}.

(** The condition of the first [if] of the catch block.  [||] and [&&]
    evaluate left to right and stop early, so the [includes] call is reached
    only when no code is 429 and [error?.error?.message] is truthy. *)
Definition is_rate_limit (error : JsValue) : Completion bool :=
  if strict_equals_number (get (get error "error") "code") 429%float then Return true
  else if strict_equals_number (get (get (get error "error") "error") "code") 429%float
  then Return true
  else if strict_equals_number (get error "code") 429%float then Return true
  else
    let message := get (get error "error") "message" in
    if truthy message then call_includes message "quota" else Return false.

(** The catch block of [generateImage], after its [console.error]: the
    exception it throws. *)
Definition generateImage_catch (error : JsValue) : Exn :=
  match is_rate_limit error with
  | Throw e => e
  | Return true => NewError RATE_LIMIT_MESSAGE
  | Return false =>
      if truthy (get (get error "error") "message") then
        throw_template Number_toString "API Error: " (get (get error "error") "message")
      else if truthy (get (get (get error "error") "error") "message") then
        throw_template Number_toString "API Error: "
          (get (get (get error "error") "error") "message")
      else if truthy (get error "message") then
        throw_template Number_toString "Error: " (get error "message")
      else NewError GENERATE_FAILED_MESSAGE
  end.

Definition generateImage (request : GenerationRequest.t)
  : list LogEntry * Completion (list string) :=
  match generateContent (generateImage_parameters request) with
  | Resolved response => ([], Return (collect_images response))
  | Rejected error =>
      ([("Error generating image:", ThrownValue error)], Throw (generateImage_catch error))
  end.

(** *** editImage *)

Definition editImage_contents (request : EditRequest.t) : list Part :=
  let contents :=
    [text_part (buildEditPrompt request); image_part (EditRequest.originalImage request)] in
  let contents := push_reference_images (EditRequest.referenceImages request) contents in
  match EditRequest.maskImage request with
  | Some mask => if truthy_string mask then (contents ++ [image_part mask])%list else contents
  | None => contents
  end.

Definition editImage_parameters (request : EditRequest.t) : GenerateContentParameters :=
  {| model := MODEL; contents := editImage_contents request |}.

Definition editImage (request : EditRequest.t)
  : list LogEntry * Completion (list string) :=
  match generateContent (editImage_parameters request) with
  | Resolved response => ([], Return (collect_images response))
  | Rejected error =>
      ([("Error editing image:", ThrownValue error)], Throw (NewError EDIT_FAILED_MESSAGE))
  end.

(** *** segmentImage *)

Definition segmentImage_contents (request : SegmentationRequest.t) : list Part :=
  [text_part (buildSegmentPrompt request); image_part (SegmentationRequest.image request)].

Definition segmentImage_parameters (request : SegmentationRequest.t)
  : GenerateContentParameters :=
  {| model := MODEL; contents := segmentImage_contents request |}.

(** [response.candidates?.[0]?.content?.parts?.[0]?.text] *)
Definition responseText (response : GenerateContentResponse) : option string :=
  match first_candidate_parts response with
  | Some (part :: _) => text part
  | _ => None
  end.

(** The body of the [try] block. *)
Definition segmentImage_try (request : SegmentationRequest.t) : Completion JsValue :=
  match generateContent (segmentImage_parameters request) with
  | Rejected error => Throw (ThrownValue error)
  | Resolved response =>
      match responseText response with
      | Some t => if truthy_string t then JSON_parse t else Throw (NewError NO_RESPONSE_TEXT_MESSAGE)
      | None => Throw (NewError NO_RESPONSE_TEXT_MESSAGE)
      end
  end.

(** The [try] block under its [catch]: whatever was thrown is logged and
    replaced. *)
Definition segmentImage (request : SegmentationRequest.t)
  : list LogEntry * Completion JsValue :=
  match segmentImage_try request with
  | Return result => ([], Return result)
  | Throw error =>
      ([("Error segmenting image:", error)], Throw (NewError SEGMENT_FAILED_MESSAGE))
  end.

End GeminiService.

(** ** What the spec calls the first text part

    The spec speaks of the first text part of the first candidate: the
    first of its parts that carries text.  The code reads
    [parts?.[0]?.text], the text of the first part ([responseText]). *)

Fixpoint find_text (ps : list Part) : option string :=
  match ps with
  | [] => None
  | p :: rest =>
      match text p with
      | Some t => Some t
      | None => find_text rest
      end
  end.

Definition spec_first_text_part (response : GenerateContentResponse) : option string :=
  match first_candidate_parts response with
  | Some ps => find_text ps
  | None => None
  end.

(** What the spec calls the inline-image data fields of the first
    candidate's parts: the [data] of every part that has one, in order. *)
Fixpoint data_fields (ps : list Part) : list string :=
  match ps with
  | [] => []
  | p :: rest =>
      match inline_data p with
      | Some d => d :: data_fields rest
      | None => data_fields rest
      end
  end.

Definition spec_inline_image_data (response : GenerateContentResponse) : list string :=
  match first_candidate_parts response with
  | Some ps => data_fields ps
  | None => []
  end.

(** ** A reference JSON reader

    [JSON.parse] is a parameter of the service.  To run the service on
    concrete responses the examples instantiate it with this reader of a
    fragment of JSON: [null], [true], [false], unsigned integers of at most
    fifteen digits, strings without escapes, arrays and objects.  Any other
    text makes it throw. *)
Module JsonLite.

Definition is_ws (c : ascii) : bool :=
  Ascii.eqb c " " || Ascii.eqb c "009" || Ascii.eqb c "010" || Ascii.eqb c "013".

Fixpoint skip_ws (s : string) : string :=
  match s with
  | String c rest => if is_ws c then skip_ws rest else s
  | EmptyString => s
  end.

(** [strip lit s]: what follows [lit] at the head of [s]. *)
Fixpoint strip (lit s : string) : option string :=
  match lit with
  | EmptyString => Some s
  | String c lit' =>
      match s with
      | String d s' => if Ascii.eqb c d then strip lit' s' else None
      | EmptyString => None
      end
  end.

(** The characters of a string literal up to its closing quote. *)
Fixpoint read_chars (s : string) : option (string * string) :=
  match s with
  | EmptyString => None
  | String c rest =>
      if Ascii.eqb c "034" then Some ("", rest)
      else if Ascii.eqb c "\" || (nat_of_ascii c <? 32)%nat then None
      else
        match read_chars rest with
        | Some (body, rest') => Some (String c body, rest')
        | None => None
        end
  end.

Fixpoint float_of_nat (n : nat) : float :=
  match n with
  | O => 0%float
  | S k => (float_of_nat k + 1)%float
  end.

Definition digit_value (c : ascii) : option float :=
  let n := nat_of_ascii c in
  if ((48 <=? n) && (n <=? 57))%nat then Some (float_of_nat (n - 48)) else None.

Fixpoint read_digits (budget : nat) (acc : float) (s : string) : option (float * string) :=
  match s with
  | String c rest =>
      match digit_value c with
      | Some d =>
          match budget with
          | O => None
          | S budget' => read_digits budget' (acc * 10 + d)%float rest
          end
      | None => Some (acc, s)
      end
  | EmptyString => Some (acc, s)
  end.

(** JSON allows no leading zero: [0] stands alone. *)
Definition read_number (s : string) : option (float * string) :=
  match s with
  | String c rest =>
      match digit_value c with
      | Some d =>
          if Ascii.eqb c "0" then
            match rest with
            | String c' _ =>
                match digit_value c' with
                | Some _ => None
                | None => Some (d, rest)
                end
            | EmptyString => Some (d, rest)
            end
          else read_digits 14 d rest
      | None => None
      end
  | EmptyString => None
  end.

(** A repeated key keeps its place and takes the later value. *)
Fixpoint set_prop (key : string) (v : JsValue) (props : list (string * JsValue))
  : list (string * JsValue) :=
  match props with
  | [] => [(key, v)]
  | (k, old) :: rest =>
      if String.eqb k key then (k, v) :: rest else (k, old) :: set_prop key v rest
  end.

Fixpoint read_value (fuel : nat) (s : string) : option (JsValue * string) :=
  match fuel with
  | O => None
  | S fuel' =>
      match skip_ws s with
      | EmptyString => None
      | String c rest as s' =>
          if Ascii.eqb c "034" then
            match read_chars rest with
            | Some (body, rest') => Some (JStr body, rest')
            | None => None
            end
          else if Ascii.eqb c "[" then
            match strip "]" (skip_ws rest) with
            | Some rest' => Some (JArr [], rest')
            | None =>
                match read_elements fuel' rest [] with
                | Some (elems, rest') => Some (JArr elems, rest')
                | None => None
                end
            end
          else if Ascii.eqb c "{" then
            match strip "}" (skip_ws rest) with
            | Some rest' => Some (JObj [], rest')
            | None =>
                match read_members fuel' rest [] with
                | Some (props, rest') => Some (JObj props, rest')
                | None => None
                end
            end
          else
            match strip "null" s', strip "true" s', strip "false" s' with
            | Some rest', _, _ => Some (JNull, rest')
            | _, Some rest', _ => Some (JBool true, rest')
            | _, _, Some rest' => Some (JBool false, rest')
            | None, None, None =>
                match read_number s' with
                | Some (n, rest') => Some (JNum n, rest')
                | None => None
                end
            end
      end
  end
with read_elements (fuel : nat) (s : string) (acc : list JsValue)
  : option (list JsValue * string) :=
  match fuel with
  | O => None
  | S fuel' =>
      match read_value fuel' s with
      | Some (v, rest) =>
          match skip_ws rest with
          | String c rest' =>
              if Ascii.eqb c "," then read_elements fuel' rest' (acc ++ [v])%list
              else if Ascii.eqb c "]" then Some ((acc ++ [v])%list, rest')
              else None
          | EmptyString => None
          end
      | None => None
      end
  end
with read_members (fuel : nat) (s : string) (acc : list (string * JsValue))
  : option (list (string * JsValue) * string) :=
  match fuel with
  | O => None
  | S fuel' =>
      match strip DQ (skip_ws s) with
      | Some rest =>
          match read_chars rest with
          | Some (key, rest1) =>
              match strip ":" (skip_ws rest1) with
              | Some rest2 =>
                  match read_value fuel' rest2 with
                  | Some (v, rest3) =>
                      match skip_ws rest3 with
                      | String c rest4 =>
                          if Ascii.eqb c "," then read_members fuel' rest4 (set_prop key v acc)
                          else if Ascii.eqb c "}" then Some (set_prop key v acc, rest4)
                          else None
                      | EmptyString => None
                      end
                  | None => None
                  end
              | None => None
              end
          | None => None
          end
      | None => None
      end
  end.

Definition syntax_error : Exn :=
  ThrownValue (JObj [("name", JStr "SyntaxError"); ("message", JStr "Unexpected token")]).

Definition parse (t : string) : Completion JsValue :=
  match read_value (2 * String.length t + 2) t with
  | Some (v, rest) =>
      match skip_ws rest with
      | EmptyString => Return v
      | String _ _ => Throw syntax_error
      end
  | None => Throw syntax_error
  end.

End JsonLite.

(** The number-to-string conversion is never reached by the examples, which
    print no number; they pass this one. *)
Definition no_number_printing (n : float) : string := "".

Definition MASKS_JSON : string := "{" ++ DQ ++ "masks" ++ DQ ++ ":[]}".

(** ** The spec's wording, for comparison with the code *)

(** The reference images of a request, none when the field is left out. *)
Definition images_of (referenceImages : option (list string)) : list string :=
  match referenceImages with
  | Some images => images
  | None => []
  end.

(** The content list of [editImage] as the spec words it: the edit prompt,
    the original image, each reference image, then the mask image when the
    request has one. *)
Definition spec_editImage_contents (request : EditRequest.t) : list Part :=
  ([text_part (buildEditPrompt request); image_part (EditRequest.originalImage request)]
   ++ map image_part (images_of (EditRequest.referenceImages request))
   ++ match EditRequest.maskImage request with
      | Some mask => [image_part mask]
      | None => []
      end)%list.

(** An error that wraps the string form of a message; when the message has
    no string form, the TypeError of the conversion takes its place. *)
Definition surfaced_with (wrap : string -> Exn) (printed : option string) : Exn :=
  match printed with
  | Some message => wrap message
  | None => TypeErrorNotPrimitive
  end.

(** A field is present, in the spec's sense, when the object has it. *)
Definition present (v : JsValue) : bool :=
  match v with
  | JUndefined => false
  | _ => true
  end.

(** The surfaced error as C4 words it, for an error outside the rate-limit
    case: a nested provider message that is present, at either depth, gives
    ApiError; else a generic message that is present gives GenericError;
    else UnknownError. *)
Definition spec_surfaced_error (Number_toString : float -> string) (error : JsValue) : Exn :=
  if present (get (get error "error") "message") then
    surfaced_with ApiError (ToString Number_toString (get (get error "error") "message"))
  else if present (get (get (get error "error") "error") "message") then
    surfaced_with ApiError
      (ToString Number_toString (get (get (get error "error") "error") "message"))
  else if present (get error "message") then
    surfaced_with GenericError (ToString Number_toString (get error "message"))
  else UnknownError.

(** Every suffix of a string, the string itself first and the empty string
    last. *)
Fixpoint suffixes (s : string) : list string :=
  s :: match s with
       | EmptyString => []
       | String _ rest => suffixes rest
       end.

(** ** Sample requests, responses and errors *)

(** A response whose first candidate has the parts [ps]. *)
Definition response_of_parts (ps : list Part) : GenerateContentResponse :=
  {| candidates := Some [ {| content := Some {| parts := Some ps |} |} ] |}.

(** The parts [[textPart, imagePartA, imagePartB]]. *)
Definition text_and_two_images_response : GenerateContentResponse :=
  response_of_parts [text_part "here you are"; image_part "AAAA"; image_part "BBBB"].

(** A part with an [inlineData] whose [data] is the empty string. *)
Definition empty_image_response : GenerateContentResponse :=
  response_of_parts [image_part ""].

Definition sample_generation_request : GenerationRequest.t :=
  {| GenerationRequest.prompt := "a red car";
     GenerationRequest.referenceImages := Some ["AAAA"; "BBBB"];
     GenerationRequest.temperature := None;
     GenerationRequest.seed := None |}.

Definition sample_edit_request : EditRequest.t :=
  {| EditRequest.instruction := "make the car blue";
     EditRequest.originalImage := "AAAA";
     EditRequest.referenceImages := Some ["BBBB"];
     EditRequest.maskImage := Some "MMMM";
     EditRequest.temperature := None;
     EditRequest.seed := None |}.

(** The sample requests again, with a temperature and a seed. *)
Definition sampled_generation_request : GenerationRequest.t :=
  {| GenerationRequest.prompt := "a red car";
     GenerationRequest.referenceImages := Some ["AAAA"; "BBBB"];
     GenerationRequest.temperature := Some 0.5%float;
     GenerationRequest.seed := Some 42%float |}.

Definition sampled_edit_request : EditRequest.t :=
  {| EditRequest.instruction := "make the car blue";
     EditRequest.originalImage := "AAAA";
     EditRequest.referenceImages := Some ["BBBB"];
     EditRequest.maskImage := Some "MMMM";
     EditRequest.temperature := Some 1.5%float;
     EditRequest.seed := Some 7%float |}.

(** A provider that answers with the text of the first content element as
    its only image, and rejects an empty content list. *)
Definition echo_provider (parameters : GenerateContentParameters) : ProviderOutcome :=
  match contents parameters with
  | {| text := Some t |} :: _ => Resolved (response_of_parts [image_part t])
  | _ => Rejected JUndefined
  end.

Definition empty_mask_request : EditRequest.t :=
  {| EditRequest.instruction := "make the car blue";
     EditRequest.originalImage := "AAAA";
     EditRequest.referenceImages := Some ["BBBB"];
     EditRequest.maskImage := Some "";
     EditRequest.temperature := None;
     EditRequest.seed := None |}.

Definition quota_error : JsValue :=
  JObj [("error", JObj [("message", JStr "quota exceeded")])].

Definition code_429_error : JsValue :=
  JObj [("error", JObj [("code", JNum 429%float)])].

Definition nested_429_error : JsValue :=
  JObj [("error", JObj [("error", JObj [("code", JNum 429%float)])])].

Definition flat_429_error : JsValue :=
  JObj [("code", JNum 429%float); ("message", JStr "Too Many Requests")].

Definition empty_nested_message_error : JsValue :=
  JObj [("error", JObj [("message", JStr "")]); ("message", JStr "boom")].

Definition numeric_message_error : JsValue :=
  JObj [("error", JObj [("message", JNum 42%float)])].

Definition api_error : JsValue :=
  JObj [("error", JObj [("code", JNum 400%float); ("message", JStr "Invalid argument")]);
        ("message", JStr "outer")].

Definition deep_api_error : JsValue :=
  JObj [("error", JObj [("error", JObj [("message", JStr "Model overloaded")])])].

Definition plain_error : JsValue := JObj [("message", JStr "fetch failed")].

(** Messages that have no string form: an object with a [toString] property
    of its own, alone and as an element of an array. *)
Definition unprintable_message_error : JsValue :=
  JObj [("message", JObj [("toString", JNum 1%float)])].

Definition unprintable_element_error : JsValue :=
  JObj [("error", JObj [("message", JArr [JStr "x"; JObj [("toString", JNum 1%float)]])])].

(** A message that is an array of printable values. *)
Definition array_message_error : JsValue :=
  JObj [("error", JObj [("message", JArr [JStr "a"; JNull; JArr [JBool true; JStr "b"]])])].

Definition sample_segmentation_request : SegmentationRequest.t :=
  {| SegmentationRequest.image := "AAAA"; SegmentationRequest.query := "the red car" |}.

(** The provider answers with an image first and the JSON text second. *)
Definition image_then_text_response : GenerateContentResponse :=
  response_of_parts [image_part "AAAA"; text_part MASKS_JSON].

(** The provider answers with an image only. *)
Definition image_only_response : GenerateContentResponse :=
  response_of_parts [image_part "AAAA"].

Definition garbage_response : GenerateContentResponse :=
  response_of_parts [text_part "not json"].

Definition masks_response : GenerateContentResponse :=
  response_of_parts [text_part MASKS_JSON].

Definition other_shape_response : GenerateContentResponse :=
  response_of_parts [text_part "[1, true, null]"].

Definition clause_in_instruction_request : EditRequest.t :=
  {| EditRequest.instruction := "Brighten the sky. " ++ MASK_CLAUSE;
     EditRequest.originalImage := "AAAA";
     EditRequest.referenceImages := None;
     EditRequest.maskImage := None;
     EditRequest.temperature := None;
     EditRequest.seed := None |}.

(** ** Configuration *)

(** [import.meta.env.VITE_GEMINI_API_KEY || 'demo-key']: the value of the
    environment entry when it is truthy, the placeholder otherwise.  The
    entry has type [any]; the cast [as string] does nothing at run time. *)
Definition API_KEY (VITE_GEMINI_API_KEY : JsValue) : JsValue :=
  if truthy VITE_GEMINI_API_KEY then VITE_GEMINI_API_KEY else JStr "demo-key".

(** ** Auxiliary notions for the further properties *)

(** The parts of the first candidate, none when a link of
    [response.candidates?.[0]?.content?.parts] is missing. *)
Definition parts_of (response : GenerateContentResponse) : list Part :=
  match first_candidate_parts response with
  | Some ps => ps
  | None => []
  end.

(** The mask as [editImage] treats it: absent when empty. *)
Definition nonempty_mask (maskImage : option string) : option string :=
  match maskImage with
  | Some mask => if truthy_string mask then Some mask else None
  | None => None
  end.

Definition mask_images (maskImage : option string) : list string :=
  match nonempty_mask maskImage with
  | Some mask => [mask]
  | None => []
  end.

(** A provider that sends the content list back as the parts of its only
    candidate. *)
Definition mirror_provider (parameters : GenerateContentParameters) : ProviderOutcome :=
  Resolved (response_of_parts (contents parameters)).

(** The console and the completion agree: nothing is logged on success, and
    a failure logs one line under [label] and throws an exception that is
    not a value thrown by the provider or by [JSON.parse]. *)
Definition logged_and_wrapped {A : Type} (label : string)
    (outcome : list LogEntry * Completion A) : Prop :=
  match snd outcome with
  | Return _ => fst outcome = []
  | Throw e => (exists caught, fst outcome = [(label, caught)])
               /\ forall v, e <> ThrownValue v
  end.

(** The rate-limit case of the catch block of [generateImage], spelled out. *)
Definition carries_429 (error : JsValue) : Prop :=
  strict_equals_number (get (get error "error") "code") 429%float = true
  \/ strict_equals_number (get (get (get error "error") "error") "code") 429%float = true
  \/ strict_equals_number (get error "code") 429%float = true.

Definition mentions_quota (message : JsValue) : Prop :=
  (exists m, message = JStr m /\ includes m "quota" = true)
  \/ (exists elems, message = JArr elems
                    /\ existsb (same_value_zero_string "quota") elems = true).

(** A 429 given as a string, and a quota message inside an array. *)
Definition string_code_error : JsValue :=
  JObj [("error", JObj [("code", JStr "429"); ("message", JStr "Too Many Requests")])].

Definition quota_array_error : JsValue :=
  JObj [("error", JObj [("message", JArr [JStr "quota"])])].

(** * Properties *)

(** ** The reference reader on sample texts *)

Example parse_masks : JsonLite.parse MASKS_JSON = Return (JObj [("masks", JArr [])]).
Proof. vm_compute. reflexivity. Qed.

Example parse_nested :
  JsonLite.parse ("{ " ++ DQ ++ "a" ++ DQ ++ " : [1, true, null, " ++ DQ ++ "x" ++ DQ ++ "] }")
  = Return (JObj [("a", JArr [JNum 1; JBool true; JNull; JStr "x"])]).
Proof. vm_compute. reflexivity. Qed.

Example parse_garbage : JsonLite.parse "not json" = Throw JsonLite.syntax_error.
Proof. vm_compute. reflexivity. Qed.

Example parse_empty : JsonLite.parse "" = Throw JsonLite.syntax_error.
Proof. vm_compute. reflexivity. Qed.

(** ** The content list *)

Lemma fold_push_image_parts (images : list string) (contents : list Part) :
  fold_left (fun acc image => (acc ++ [image_part image])%list) images contents
  = (contents ++ map image_part images)%list.
Proof.
  revert contents.
  induction images as [|image images IH]; intros contents; simpl.
  - now rewrite app_nil_r.
  - rewrite IH, <- app_assoc. reflexivity.
Qed.

Lemma push_reference_images_app (referenceImages : option (list string)) (contents : list Part) :
  push_reference_images referenceImages contents
  = (contents ++ map image_part (images_of referenceImages))%list.
Proof.
  destruct referenceImages as [images|]; simpl.
  - destruct images as [|image images].
    + simpl. now rewrite app_nil_r.
    + unfold push_reference_images.
      change (0 <? List.length (image :: images))%nat with true.
      apply fold_push_image_parts.
  - now rewrite app_nil_r.
Qed.

(** ** The extraction loop *)

Lemma fold_collect (ps : list Part) (acc : list string) :
  fold_left
    (fun images part =>
       match inline_data part with
       | Some d => if truthy_string d then (images ++ [d])%list else images
       | None => images
       end)
    ps acc
  = (acc ++ filter truthy_string (data_fields ps))%list.
Proof.
  revert acc.
  induction ps as [|p ps IH]; intros acc; simpl.
  - now rewrite app_nil_r.
  - rewrite IH. destruct (inline_data p) as [d|]; simpl; [|reflexivity].
    destruct (truthy_string d); [|reflexivity].
    now rewrite <- app_assoc.
Qed.

Lemma collect_images_filter (response : GenerateContentResponse) :
  collect_images response = filter truthy_string (spec_inline_image_data response).
Proof.
  unfold collect_images, spec_inline_image_data.
  destruct (first_candidate_parts response) as [ps|]; [|reflexivity].
  apply fold_collect.
Qed.

(** C1, as stated, fails: a part whose inline-image [data] field is the
    empty string has a data field, but [generateImage] and [editImage] leave
    it out of what they return. *)
Lemma empty_data_field_is_dropped :
  spec_inline_image_data empty_image_response = [""]
  /\ generateImage no_number_printing (fun _ => Resolved empty_image_response)
       sample_generation_request = ([], Return [])
  /\ editImage (fun _ => Resolved empty_image_response) sample_edit_request
     = ([], Return []).
Proof. repeat split. Qed.

(** C1, amended: for every provider response, [generateImage] and
    [editImage] return exactly the non-empty inline-image data fields of the
    first candidate's content parts, in part order, and write nothing to the
    console; so when no part carries non-empty inline image data, and also
    when the response has no candidate, content or parts, the result is the
    empty sequence and not an error. *)
Theorem extraction_returns_nonempty_data_fields
    (Number_toString : float -> string)
    (generateContent : GenerateContentParameters -> ProviderOutcome)
    (response : GenerateContentResponse) :
  (forall request,
      generateContent (generateImage_parameters request) = Resolved response ->
      generateImage Number_toString generateContent request
      = ([], Return (filter truthy_string (spec_inline_image_data response))))
  /\ (forall request,
      generateContent (editImage_parameters request) = Resolved response ->
      editImage generateContent request
      = ([], Return (filter truthy_string (spec_inline_image_data response)))).
Proof.
  split; intros request Hresolved.
  - unfold generateImage. rewrite Hresolved, collect_images_filter. reflexivity.
  - unfold editImage. rewrite Hresolved, collect_images_filter. reflexivity.
Qed.

(** The spec's example: parts [[textPart, imagePartA, imagePartB]] yield
    [[imagePartA.data, imagePartB.data]]. *)
Lemma extraction_returns_nonempty_data_fields_witness :
  generateImage no_number_printing (fun _ => Resolved text_and_two_images_response)
    sample_generation_request
  = ([], Return ["AAAA"; "BBBB"])
  /\ editImage (fun _ => Resolved text_and_two_images_response) sample_edit_request
     = ([], Return ["AAAA"; "BBBB"]).
Proof.
  split.
  - apply (proj1 (extraction_returns_nonempty_data_fields no_number_printing
                    (fun _ => Resolved text_and_two_images_response)
                    text_and_two_images_response)
                 sample_generation_request).
    reflexivity.
  - apply (proj2 (extraction_returns_nonempty_data_fields no_number_printing
                    (fun _ => Resolved text_and_two_images_response)
                    text_and_two_images_response)
                 sample_edit_request).
    reflexivity.
Defined.

(** ** C2: order of the content list *)

(** C2, as stated, fails: a request whose [maskImage] is the empty string
    has a mask image, but [editImage] does not append it. *)
Lemma empty_mask_is_not_appended :
  EditRequest.maskImage empty_mask_request = Some ""
  /\ spec_editImage_contents empty_mask_request
     = [text_part (buildEditPrompt empty_mask_request);
        image_part "AAAA"; image_part "BBBB"; image_part ""]
  /\ editImage_contents empty_mask_request
     = [text_part (buildEditPrompt empty_mask_request);
        image_part "AAAA"; image_part "BBBB"].
Proof. repeat split. Qed.

Lemma generateImage_contents_eq (request : GenerationRequest.t) :
  generateImage_contents request
  = text_part (GenerationRequest.prompt request)
    :: map image_part (images_of (GenerationRequest.referenceImages request)).
Proof.
  unfold generateImage_contents. now rewrite push_reference_images_app.
Qed.

Lemma editImage_contents_eq (request : EditRequest.t) :
  editImage_contents request
  = (text_part (buildEditPrompt request)
     :: image_part (EditRequest.originalImage request)
     :: map image_part (images_of (EditRequest.referenceImages request))
     ++ match EditRequest.maskImage request with
        | Some mask => if truthy_string mask then [image_part mask] else []
        | None => []
        end)%list.
Proof.
  unfold editImage_contents. rewrite push_reference_images_app. simpl.
  destruct (EditRequest.maskImage request) as [mask|].
  - destruct (truthy_string mask); simpl; [reflexivity|].
    now rewrite app_nil_r.
  - now rewrite app_nil_r.
Qed.

(** Where the mask is absent or non-empty the code and the spec's wording
    agree. *)
Lemma editImage_contents_spec (request : EditRequest.t) :
  EditRequest.maskImage request <> Some "" ->
  editImage_contents request = spec_editImage_contents request.
Proof.
  intros Hmask. rewrite editImage_contents_eq. unfold spec_editImage_contents. simpl.
  destruct (EditRequest.maskImage request) as [[|c mask]|]; simpl;
    [congruence|reflexivity|reflexivity].
Qed.

(** C2, amended: for every GenerationRequest with N reference images,
    [generateImage] sends a content list whose first element is the prompt
    text, followed by exactly N inline-image elements in input order; for
    every EditRequest, [editImage] sends the edit prompt text, then the
    original image, then each reference image in order, then the mask image
    last if it is present and not the empty string. *)
Theorem content_list_order :
  (forall request : GenerationRequest.t,
      contents (generateImage_parameters request)
      = text_part (GenerationRequest.prompt request)
        :: map image_part (images_of (GenerationRequest.referenceImages request))
      /\ List.length (contents (generateImage_parameters request))
         = S (List.length (images_of (GenerationRequest.referenceImages request))))
  /\ (forall request : EditRequest.t,
      contents (editImage_parameters request)
      = (text_part (buildEditPrompt request)
         :: image_part (EditRequest.originalImage request)
         :: map image_part (images_of (EditRequest.referenceImages request))
         ++ match EditRequest.maskImage request with
            | Some mask => if truthy_string mask then [image_part mask] else []
            | None => []
            end)%list).
Proof.
  split.
  - intros request. simpl. rewrite generateImage_contents_eq. simpl.
    split; [reflexivity|]. now rewrite length_map.
  - intros request. simpl. apply editImage_contents_eq.
Qed.

(** ** C10: temperature and seed *)

(** C10: the [temperature] and [seed] fields are ignored.  Two requests that
    agree on the prompt and the reference images (respectively on the
    instruction, the original image, the reference images and the mask),
    whatever their temperatures and seeds, give [generateImage]
    (respectively [editImage]) the same provider payload, and against any
    provider the same console output and the same completion. *)
Theorem temperature_and_seed_are_ignored
    (Number_toString : float -> string)
    (generateContent : GenerateContentParameters -> ProviderOutcome) :
  (forall request1 request2 : GenerationRequest.t,
      GenerationRequest.prompt request1 = GenerationRequest.prompt request2 ->
      GenerationRequest.referenceImages request1 = GenerationRequest.referenceImages request2 ->
      generateImage_parameters request1 = generateImage_parameters request2
      /\ generateImage Number_toString generateContent request1
         = generateImage Number_toString generateContent request2)
  /\ (forall request1 request2 : EditRequest.t,
      EditRequest.instruction request1 = EditRequest.instruction request2 ->
      EditRequest.originalImage request1 = EditRequest.originalImage request2 ->
      EditRequest.referenceImages request1 = EditRequest.referenceImages request2 ->
      EditRequest.maskImage request1 = EditRequest.maskImage request2 ->
      editImage_parameters request1 = editImage_parameters request2
      /\ editImage generateContent request1 = editImage generateContent request2).
Proof.
  split.
  - intros request1 request2 Hprompt Hreferences.
    assert (Hparameters : generateImage_parameters request1 = generateImage_parameters request2).
    { unfold generateImage_parameters, generateImage_contents.
      now rewrite Hprompt, Hreferences. }
    split; [exact Hparameters|]. unfold generateImage. now rewrite Hparameters.
  - intros request1 request2 Hinstruction Horiginal Hreferences Hmask.
    assert (Hparameters : editImage_parameters request1 = editImage_parameters request2).
    { unfold editImage_parameters, editImage_contents, buildEditPrompt.
      now rewrite Hinstruction, Horiginal, Hreferences, Hmask. }
    split; [exact Hparameters|]. unfold editImage. now rewrite Hparameters.
Qed.

(** Two pairs of requests that differ in temperature and seed only, against
    a provider that echoes the text of the first content element. *)
Lemma temperature_and_seed_are_ignored_witness :
  generateImage no_number_printing echo_provider sample_generation_request
  = generateImage no_number_printing echo_provider sampled_generation_request
  /\ editImage echo_provider sample_edit_request
     = editImage echo_provider sampled_edit_request.
Proof.
  split.
  - apply (proj1 (temperature_and_seed_are_ignored no_number_printing echo_provider));
      reflexivity.
  - apply (proj2 (temperature_and_seed_are_ignored no_number_printing echo_provider));
      reflexivity.
Defined.

(** ** C3 and C4: the catch block of generateImage *)

Lemma includes_quota_nonempty (m : string) :
  includes m "quota" = true -> truthy_string m = true.
Proof.
  destruct m as [|c m]; [discriminate|reflexivity].
Qed.

Section GenerateImageCatch.

Variable Number_toString : float -> string.
Variable generateContent : GenerateContentParameters -> ProviderOutcome.
Variable request : GenerationRequest.t.
Variable error : JsValue.

Hypothesis Hrejected :
  generateContent (generateImage_parameters request) = Rejected error.

Lemma is_rate_limit_true :
  strict_equals_number (get (get error "error") "code") 429%float = true
  \/ strict_equals_number (get (get (get error "error") "error") "code") 429%float = true
  \/ strict_equals_number (get error "code") 429%float = true
  \/ (exists m, get (get error "error") "message" = JStr m /\ includes m "quota" = true) ->
  is_rate_limit error = Return true.
Proof.
  intros Hcase. unfold is_rate_limit.
  destruct (strict_equals_number (get (get error "error") "code") 429%float);
    [reflexivity|].
  destruct (strict_equals_number (get (get (get error "error") "error") "code") 429%float);
    [reflexivity|].
  destruct (strict_equals_number (get error "code") 429%float); [reflexivity|].
  destruct Hcase as [H|[H|[H|[m [Hm Hquota]]]]]; try discriminate.
  rewrite Hm. simpl. rewrite (includes_quota_nonempty m Hquota). simpl.
  now rewrite Hquota.
Qed.

(** C3: for every error caught by [generateImage], if the error carries
    code 429 at [error.error.code], [error.error.error.code] or [error.code],
    or [error.error.message] is a string that contains "quota", the error is
    logged and the surfaced error is RateLimitExceeded; the ApiError path,
    which such a message would also satisfy, is not taken. *)
Theorem rate_limit_takes_precedence :
  strict_equals_number (get (get error "error") "code") 429%float = true
  \/ strict_equals_number (get (get (get error "error") "error") "code") 429%float = true
  \/ strict_equals_number (get error "code") 429%float = true
  \/ (exists m, get (get error "error") "message" = JStr m /\ includes m "quota" = true) ->
  generateImage Number_toString generateContent request
  = ([("Error generating image:", ThrownValue error)], Throw RateLimitExceeded).
Proof.
  intros Hcase. unfold generateImage, generateImage_catch.
  rewrite Hrejected, (is_rate_limit_true Hcase). reflexivity.
Qed.

(** C4, amended: for every error caught by [generateImage] on which the
    rate-limit test evaluates to false, the surfaced error is determined in
    priority order, a message counting only when it is truthy (for a string:
    present and not empty): a nested provider message at
    [error.error.message], else at [error.error.error.message], yields
    ApiError wrapping that message; else a generic [error.message] yields
    GenericError wrapping that message; else the result is UnknownError with
    the fixed message "Failed to generate image. Please try again.".  The
    message is wrapped in its string form; when the chosen message has none
    (an object with a [toString] property of its own, alone or as an element
    of an array message), the TypeError of the conversion is surfaced in
    place of the wrapping error. *)
Theorem error_priority_order :
  is_rate_limit error = Return false ->
  generateImage Number_toString generateContent request
  = ([("Error generating image:", ThrownValue error)],
     Throw
       (if truthy (get (get error "error") "message") then
          surfaced_with ApiError
            (ToString Number_toString (get (get error "error") "message"))
        else if truthy (get (get (get error "error") "error") "message") then
          surfaced_with ApiError
            (ToString Number_toString (get (get (get error "error") "error") "message"))
        else if truthy (get error "message") then
          surfaced_with GenericError (ToString Number_toString (get error "message"))
        else UnknownError)).
Proof.
  intros Hcase. unfold generateImage, generateImage_catch.
  rewrite Hrejected, Hcase. reflexivity.
Qed.

End GenerateImageCatch.

(** The spec's three examples and a 429 at the top level. *)
Lemma rate_limit_takes_precedence_witness :
  generateImage no_number_printing (fun _ => Rejected quota_error) sample_generation_request
  = ([("Error generating image:", ThrownValue quota_error)], Throw RateLimitExceeded)
  /\ generateImage no_number_printing (fun _ => Rejected code_429_error)
       sample_generation_request
     = ([("Error generating image:", ThrownValue code_429_error)], Throw RateLimitExceeded)
  /\ generateImage no_number_printing (fun _ => Rejected nested_429_error)
       sample_generation_request
     = ([("Error generating image:", ThrownValue nested_429_error)], Throw RateLimitExceeded)
  /\ generateImage no_number_printing (fun _ => Rejected flat_429_error)
       sample_generation_request
     = ([("Error generating image:", ThrownValue flat_429_error)], Throw RateLimitExceeded).
Proof.
  split; [|split; [|split]].
  - apply (rate_limit_takes_precedence no_number_printing (fun _ => Rejected quota_error)
             sample_generation_request quota_error eq_refl).
    right; right; right. exists "quota exceeded". split; reflexivity.
  - apply (rate_limit_takes_precedence no_number_printing (fun _ => Rejected code_429_error)
             sample_generation_request code_429_error eq_refl).
    left. reflexivity.
  - apply (rate_limit_takes_precedence no_number_printing (fun _ => Rejected nested_429_error)
             sample_generation_request nested_429_error eq_refl).
    right; left. reflexivity.
  - apply (rate_limit_takes_precedence no_number_printing (fun _ => Rejected flat_429_error)
             sample_generation_request flat_429_error eq_refl).
    right; right; left. reflexivity.
Defined.

(** C4, as stated, fails.  A nested provider message that is the empty
    string is present, yet the code passes over it and wraps the generic
    message instead.  And a nested message that is a number is present and
    the error carries neither code 429 nor the word "quota", yet the catch
    block throws a TypeError from its rate-limit test. *)
Lemma empty_message_is_skipped :
  is_rate_limit empty_nested_message_error = Return false
  /\ spec_surfaced_error no_number_printing empty_nested_message_error = ApiError ""
  /\ generateImage no_number_printing (fun _ => Rejected empty_nested_message_error)
       sample_generation_request
     = ([("Error generating image:", ThrownValue empty_nested_message_error)],
        Throw (GenericError "boom"))
  /\ GenericError "boom" <> ApiError ""
  /\ generateImage no_number_printing (fun _ => Rejected numeric_message_error)
       sample_generation_request
     = ([("Error generating image:", ThrownValue numeric_message_error)],
        Throw TypeErrorNotAFunction).
Proof.
  repeat split. discriminate.
Qed.

(** One error for each rung of the ladder, a message that is an array, and
    two messages that cannot be converted to a string. *)
Lemma error_priority_order_witness :
  generateImage no_number_printing (fun _ => Rejected api_error) sample_generation_request
  = ([("Error generating image:", ThrownValue api_error)],
     Throw (ApiError "Invalid argument"))
  /\ generateImage no_number_printing (fun _ => Rejected deep_api_error)
       sample_generation_request
     = ([("Error generating image:", ThrownValue deep_api_error)],
        Throw (ApiError "Model overloaded"))
  /\ generateImage no_number_printing (fun _ => Rejected plain_error) sample_generation_request
     = ([("Error generating image:", ThrownValue plain_error)],
        Throw (GenericError "fetch failed"))
  /\ generateImage no_number_printing (fun _ => Rejected JUndefined) sample_generation_request
     = ([("Error generating image:", ThrownValue JUndefined)], Throw UnknownError)
  /\ generateImage no_number_printing (fun _ => Rejected array_message_error)
       sample_generation_request
     = ([("Error generating image:", ThrownValue array_message_error)],
        Throw (ApiError "a,,true,b"))
  /\ generateImage no_number_printing (fun _ => Rejected unprintable_message_error)
       sample_generation_request
     = ([("Error generating image:", ThrownValue unprintable_message_error)],
        Throw TypeErrorNotPrimitive)
  /\ generateImage no_number_printing (fun _ => Rejected unprintable_element_error)
       sample_generation_request
     = ([("Error generating image:", ThrownValue unprintable_element_error)],
        Throw TypeErrorNotPrimitive).
Proof.
  split; [|split; [|split; [|split; [|split; [|split]]]]].
  - exact (error_priority_order no_number_printing (fun _ => Rejected api_error)
             sample_generation_request api_error eq_refl eq_refl).
  - exact (error_priority_order no_number_printing (fun _ => Rejected deep_api_error)
             sample_generation_request deep_api_error eq_refl eq_refl).
  - exact (error_priority_order no_number_printing (fun _ => Rejected plain_error)
             sample_generation_request plain_error eq_refl eq_refl).
  - exact (error_priority_order no_number_printing (fun _ => Rejected JUndefined)
             sample_generation_request JUndefined eq_refl eq_refl).
  - exact (error_priority_order no_number_printing (fun _ => Rejected array_message_error)
             sample_generation_request array_message_error eq_refl eq_refl).
  - exact (error_priority_order no_number_printing (fun _ => Rejected unprintable_message_error)
             sample_generation_request unprintable_message_error eq_refl eq_refl).
  - exact (error_priority_order no_number_printing (fun _ => Rejected unprintable_element_error)
             sample_generation_request unprintable_element_error eq_refl eq_refl).
Defined.

(** ** C5, C6, C9: segmentImage *)

Section SegmentImage.

Variable JSON_parse : string -> Completion JsValue.
Variable generateContent : GenerateContentParameters -> ProviderOutcome.
Variable request : SegmentationRequest.t.
Variable response : GenerateContentResponse.

Hypothesis Hresolved :
  generateContent (segmentImage_parameters request) = Resolved response.

Lemma responseText_falsy_try :
  truthy_opt (responseText response) = false ->
  segmentImage_try JSON_parse generateContent request = Throw NoResponseText.
Proof.
  intros Hfalsy. unfold segmentImage_try. rewrite Hresolved.
  destruct (responseText response) as [t|]; [|reflexivity].
  simpl in Hfalsy. now rewrite Hfalsy.
Qed.

Lemma responseText_truthy_try (t : string) :
  responseText response = Some t ->
  truthy_string t = true ->
  segmentImage_try JSON_parse generateContent request = JSON_parse t.
Proof.
  intros Htext Htruthy. unfold segmentImage_try.
  now rewrite Hresolved, Htext, Htruthy.
Qed.

(** C5, amended: for every provider response, [segmentImage] reads the text
    of the first part of the first response candidate,
    [parts?.[0]?.text]; that text, when it is not empty, is what is handed
    to [JSON.parse].  For every response in which that text is absent or
    empty, the try block throws NoResponseText, the catch block logs it, and
    the operation fails. *)
Theorem segmentImage_reads_first_part :
  (forall t, responseText response = Some t -> truthy_string t = true ->
             segmentImage_try JSON_parse generateContent request = JSON_parse t)
  /\ (truthy_opt (responseText response) = false ->
      segmentImage_try JSON_parse generateContent request = Throw NoResponseText
      /\ exists thrown,
          segmentImage JSON_parse generateContent request
          = ([("Error segmenting image:", NoResponseText)], Throw thrown)).
Proof.
  split.
  - exact responseText_truthy_try.
  - intros Hfalsy. pose proof (responseText_falsy_try Hfalsy) as Htry.
    split; [exact Htry|]. exists (NewError SEGMENT_FAILED_MESSAGE).
    unfold segmentImage. now rewrite Htry.
Qed.

(** C6, amended: for every provider response whose response text (the
    non-empty text of the first part of the first candidate) is not valid
    JSON, [segmentImage] fails: the JSON-parse error is thrown inside the try
    block, the catch block logs it, and the caller receives the error the
    catch block throws in its place, not the parse error. *)
Theorem parse_error_is_caught_and_logged (t : string) (parse_error : Exn) :
  responseText response = Some t ->
  truthy_string t = true ->
  JSON_parse t = Throw parse_error ->
  segmentImage_try JSON_parse generateContent request = Throw parse_error
  /\ segmentImage JSON_parse generateContent request
     = ([("Error segmenting image:", parse_error)], Throw (NewError SEGMENT_FAILED_MESSAGE)).
Proof.
  intros Htext Htruthy Hparse.
  pose proof (responseText_truthy_try t Htext Htruthy) as Htry.
  rewrite Hparse in Htry. split; [exact Htry|].
  unfold segmentImage. now rewrite Htry.
Qed.

(** The one fact used about the runtime's [JSON.parse]: the empty string is
    not a JSON text. *)
Hypothesis JSON_parse_empty : forall v, JSON_parse "" <> Return v.

(** C9, amended: for every provider response in which the text of the first
    part of the first candidate parses as valid JSON, [segmentImage] returns
    the parsed value unchanged, whatever its shape, and logs nothing; in
    particular a first part with the text [{"masks":[]}] yields
    [{masks: []}]. *)
Theorem valid_json_is_passed_through (t : string) (parsed : JsValue) :
  responseText response = Some t ->
  JSON_parse t = Return parsed ->
  segmentImage JSON_parse generateContent request = ([], Return parsed).
Proof.
  intros Htext Hparse.
  assert (Htruthy : truthy_string t = true).
  { destruct t as [|c t']; [|reflexivity]. exfalso. exact (JSON_parse_empty parsed Hparse). }
  pose proof (responseText_truthy_try t Htext Htruthy) as Htry.
  unfold segmentImage. now rewrite Htry, Hparse.
Qed.

End SegmentImage.

(** C5, as stated, fails twice.  When the first text part is not the first
    part, [segmentImage] does not read it: it fails although a text part is
    present.  And when no text part is present, the error that reaches the
    caller is not NoResponseText. *)
Lemma first_text_part_is_not_read :
  spec_first_text_part image_then_text_response = Some MASKS_JSON
  /\ segmentImage JsonLite.parse (fun _ => Resolved image_then_text_response)
       sample_segmentation_request
     = ([("Error segmenting image:", NoResponseText)], Throw (NewError SEGMENT_FAILED_MESSAGE))
  /\ spec_first_text_part image_only_response = None
  /\ segmentImage JsonLite.parse (fun _ => Resolved image_only_response)
       sample_segmentation_request
     = ([("Error segmenting image:", NoResponseText)], Throw (NewError SEGMENT_FAILED_MESSAGE))
  /\ NewError SEGMENT_FAILED_MESSAGE <> NoResponseText.
Proof.
  repeat split. discriminate.
Qed.

(** A response with an image and no text: NoResponseText is thrown and
    logged. *)
Lemma segmentImage_reads_first_part_witness :
  truthy_opt (responseText image_only_response) = false
  /\ segmentImage_try JsonLite.parse (fun _ => Resolved image_only_response)
       sample_segmentation_request = Throw NoResponseText
  /\ exists thrown,
      segmentImage JsonLite.parse (fun _ => Resolved image_only_response)
        sample_segmentation_request
      = ([("Error segmenting image:", NoResponseText)], Throw thrown).
Proof.
  split; [reflexivity|].
  exact (proj2 (segmentImage_reads_first_part JsonLite.parse
                  (fun _ => Resolved image_only_response)
                  sample_segmentation_request image_only_response eq_refl)
               eq_refl).
Defined.

(** C6, as stated, fails: the parse error does not reach the caller. *)
Lemma parse_error_is_not_propagated :
  responseText garbage_response = Some "not json"
  /\ JsonLite.parse "not json" = Throw JsonLite.syntax_error
  /\ segmentImage JsonLite.parse (fun _ => Resolved garbage_response)
       sample_segmentation_request
     = ([("Error segmenting image:", JsonLite.syntax_error)],
        Throw (NewError SEGMENT_FAILED_MESSAGE))
  /\ NewError SEGMENT_FAILED_MESSAGE <> JsonLite.syntax_error.
Proof.
  repeat split. discriminate.
Qed.

(** The text [not json]: the reader's error is logged, the fixed error is
    thrown. *)
Lemma parse_error_is_caught_and_logged_witness :
  segmentImage_try JsonLite.parse (fun _ => Resolved garbage_response)
    sample_segmentation_request = Throw JsonLite.syntax_error
  /\ segmentImage JsonLite.parse (fun _ => Resolved garbage_response)
       sample_segmentation_request
     = ([("Error segmenting image:", JsonLite.syntax_error)],
        Throw (NewError SEGMENT_FAILED_MESSAGE)).
Proof.
  exact (parse_error_is_caught_and_logged JsonLite.parse
           (fun _ => Resolved garbage_response) sample_segmentation_request
           garbage_response eq_refl "not json" JsonLite.syntax_error
           eq_refl eq_refl eq_refl).
Defined.

(** C9, as stated, fails: the first text part of this response parses as
    valid JSON, but it is the second part, and [segmentImage] fails instead
    of returning the parsed value. *)
Lemma valid_json_in_second_part_is_lost :
  spec_first_text_part image_then_text_response = Some MASKS_JSON
  /\ JsonLite.parse MASKS_JSON = Return (JObj [("masks", JArr [])])
  /\ snd (segmentImage JsonLite.parse (fun _ => Resolved image_then_text_response)
            sample_segmentation_request)
     = Throw (NewError SEGMENT_FAILED_MESSAGE).
Proof.
  split; [reflexivity|]. split; [vm_compute; reflexivity|reflexivity].
Qed.

Lemma JsonLite_parse_empty (v : JsValue) : JsonLite.parse "" <> Return v.
Proof. discriminate. Qed.

(** The spec's example, and a value of another shape. *)
Lemma valid_json_is_passed_through_witness :
  segmentImage JsonLite.parse (fun _ => Resolved masks_response) sample_segmentation_request
  = ([], Return (JObj [("masks", JArr [])]))
  /\ segmentImage JsonLite.parse (fun _ => Resolved other_shape_response)
       sample_segmentation_request
     = ([], Return (JArr [JNum 1%float; JBool true; JNull])).
Proof.
  split.
  - apply (valid_json_is_passed_through JsonLite.parse (fun _ => Resolved masks_response)
             sample_segmentation_request masks_response eq_refl JsonLite_parse_empty
             MASKS_JSON (JObj [("masks", JArr [])]) eq_refl).
    vm_compute. reflexivity.
  - apply (valid_json_is_passed_through JsonLite.parse (fun _ => Resolved other_shape_response)
             sample_segmentation_request other_shape_response eq_refl JsonLite_parse_empty
             "[1, true, null]" (JArr [JNum 1%float; JBool true; JNull]) eq_refl).
    vm_compute. reflexivity.
Defined.

(** ** C7: the catch blocks of editImage and segmentImage *)

Lemma editImage_rejected
    (generateContent : GenerateContentParameters -> ProviderOutcome)
    (request : EditRequest.t) (error : JsValue) :
  generateContent (editImage_parameters request) = Rejected error ->
  editImage generateContent request
  = ([("Error editing image:", ThrownValue error)], Throw (NewError EDIT_FAILED_MESSAGE)).
Proof.
  intros Hrejected. unfold editImage. now rewrite Hrejected.
Qed.

Lemma segmentImage_rejected
    (JSON_parse : string -> Completion JsValue)
    (generateContent : GenerateContentParameters -> ProviderOutcome)
    (request : SegmentationRequest.t) (error : JsValue) :
  generateContent (segmentImage_parameters request) = Rejected error ->
  segmentImage JSON_parse generateContent request
  = ([("Error segmenting image:", ThrownValue error)], Throw (NewError SEGMENT_FAILED_MESSAGE)).
Proof.
  intros Hrejected. unfold segmentImage, segmentImage_try. now rewrite Hrejected.
Qed.

(** C7 does not hold of the code.  On the caught error [{error: {code: 429}}]
    [generateImage] surfaces RateLimitExceeded, while [editImage] and
    [segmentImage] log the error and surface their fixed messages, which are
    not RateLimitExceeded. *)
Theorem edit_and_segment_do_not_normalize :
  generateImage no_number_printing (fun _ => Rejected code_429_error) sample_generation_request
  = ([("Error generating image:", ThrownValue code_429_error)], Throw RateLimitExceeded)
  /\ editImage (fun _ => Rejected code_429_error) sample_edit_request
     = ([("Error editing image:", ThrownValue code_429_error)],
        Throw (NewError EDIT_FAILED_MESSAGE))
  /\ segmentImage JsonLite.parse (fun _ => Rejected code_429_error) sample_segmentation_request
     = ([("Error segmenting image:", ThrownValue code_429_error)],
        Throw (NewError SEGMENT_FAILED_MESSAGE))
  /\ NewError EDIT_FAILED_MESSAGE <> RateLimitExceeded
  /\ NewError SEGMENT_FAILED_MESSAGE <> RateLimitExceeded.
Proof.
  repeat split; discriminate.
Qed.

(** ** C8: the mask clause in the edit prompt *)

Lemma includes_cons (c : ascii) (rest needle : string) :
  includes (String c rest) needle
  = String.prefix needle (String c rest) || includes rest needle.
Proof. reflexivity. Qed.

Lemma prefix_includes (hay needle : string) :
  String.prefix needle hay = true -> includes hay needle = true.
Proof.
  intros Hprefix. destruct hay as [|c rest].
  - change (includes "" needle) with (String.prefix needle "" || false).
    now rewrite Hprefix.
  - now rewrite includes_cons, Hprefix.
Qed.

Lemma prefix_app (u w : string) : String.prefix u (u ++ w) = true.
Proof.
  induction u as [|c u IH]; simpl.
  - now destruct w.
  - destruct (ascii_dec c c); [exact IH|congruence].
Qed.

Lemma append_empty_r (s : string) : s ++ "" = s.
Proof.
  induction s as [|c s IH]; simpl; [reflexivity|now rewrite IH].
Qed.

Lemma prefix_refl (s : string) : String.prefix s s = true.
Proof.
  rewrite <- (append_empty_r s) at 2. apply prefix_app.
Qed.

Lemma includes_app_r (x y needle : string) :
  includes y needle = true -> includes (x ++ y) needle = true.
Proof.
  intros Hy. induction x as [|c x IH]; [exact Hy|].
  change (String c x ++ y) with (String c (x ++ y)).
  rewrite includes_cons, IH. apply orb_true_r.
Qed.

(** A needle at the head of [x ++ y] either fits in [x] or runs over its
    end into [y]. *)
Lemma prefix_split (x y needle : string) :
  String.prefix needle (x ++ y) = true ->
  String.prefix needle x = true \/ exists w, needle = x ++ w /\ String.prefix w y = true.
Proof.
  revert needle.
  induction x as [|c x IH]; intros needle Hprefix.
  - right. exists needle. split; [reflexivity|exact Hprefix].
  - destruct needle as [|a needle]; [left; reflexivity|].
    simpl in Hprefix. simpl.
    destruct (ascii_dec a c) as [->|]; [|discriminate].
    destruct (IH needle Hprefix) as [Hin|[w [-> Hw]]].
    + left. exact Hin.
    + right. exists w. split; [reflexivity|exact Hw].
Qed.

Lemma in_suffixes_self (s : string) : In s (suffixes s).
Proof. destruct s; left; reflexivity. Qed.

Lemma in_suffixes_cons (c : ascii) (u s : string) :
  In u (suffixes s) -> In u (suffixes (String c s)).
Proof. intros Hin. right. exact Hin. Qed.

Lemma in_suffixes_app (u w : string) : In w (suffixes (u ++ w)).
Proof.
  induction u as [|c u IH]; [apply in_suffixes_self|].
  apply in_suffixes_cons, IH.
Qed.

Lemma in_suffixes_includes (x u needle : string) :
  In u (suffixes x) -> String.prefix needle u = true -> includes x needle = true.
Proof.
  intros Hin Hprefix. induction x as [|c x IH].
  - destruct Hin as [<-|[]]. now apply prefix_includes.
  - destruct Hin as [<-|Hin]; [now apply prefix_includes|].
    rewrite includes_cons, (IH Hin). apply orb_true_r.
Qed.

(** An occurrence of the needle in [x ++ y] lies in [x], or in [y], or
    starts in [x] and runs over its end into [y]. *)
Lemma includes_split (x y needle : string) :
  includes (x ++ y) needle = true ->
  includes x needle = true
  \/ (exists u w, In u (suffixes x) /\ truthy_string u = true
                  /\ needle = u ++ w /\ String.prefix w y = true)
  \/ includes y needle = true.
Proof.
  induction x as [|c x IH]; intros Hin.
  - right; right. exact Hin.
  - change (String c x ++ y) with (String c (x ++ y)) in Hin.
    rewrite includes_cons in Hin. apply orb_true_iff in Hin.
    destruct Hin as [Hhead|Hrest].
    + destruct (prefix_split (String c x) y needle Hhead) as [Hfit|[w [Hneedle Hw]]].
      * left. now apply prefix_includes.
      * right; left. exists (String c x), w.
        split; [apply in_suffixes_self|]. split; [reflexivity|]. split; assumption.
    + destruct (IH Hrest) as [Hx|[[u [w [Hu [Hne [Hneedle Hw]]]]]|Hy]].
      * left. rewrite includes_cons, Hx. apply orb_true_r.
      * right; left. exists u, w. split; [now apply in_suffixes_cons|].
        split; [exact Hne|]. split; assumption.
      * right; right. exact Hy.
Qed.

(** No end of the prompt's head begins the clause, and no end of the clause
    begins the text that follows the instruction when there is no mask. *)
Lemma head_does_not_begin_clause :
  forallb (fun u => negb (truthy_string u && String.prefix u MASK_CLAUSE))
    (suffixes EDIT_PROMPT_HEAD) = true.
Proof. vm_compute. reflexivity. Qed.

Lemma clause_does_not_run_into_tail :
  forallb (fun w => negb (truthy_string w && String.prefix w (EDIT_PROMPT_BODY ++ EDIT_PROMPT_TAIL)))
    (suffixes MASK_CLAUSE) = true.
Proof. vm_compute. reflexivity. Qed.

Lemma clause_absent_without_mask (instruction : string) :
  includes instruction MASK_CLAUSE = false ->
  includes (EDIT_PROMPT_HEAD ++ instruction ++ EDIT_PROMPT_BODY ++ "" ++ EDIT_PROMPT_TAIL)
    MASK_CLAUSE = false.
Proof.
  intros Hinstruction.
  destruct (includes (EDIT_PROMPT_HEAD ++ instruction ++ EDIT_PROMPT_BODY ++ "" ++ EDIT_PROMPT_TAIL)
              MASK_CLAUSE) eqn:Hin; [exfalso|reflexivity].
  destruct (includes_split _ _ _ Hin) as [Hhead|[[u [w [Hu [Hne [Hclause _]]]]]|Hrest]].
  - vm_compute in Hhead. discriminate.
  - pose proof (proj1 (forallb_forall _ _) head_does_not_begin_clause u Hu) as Hcheck.
    cbv beta in Hcheck.
    assert (Hbegins : String.prefix u MASK_CLAUSE = true).
    { rewrite Hclause. apply prefix_app. }
    rewrite Hne, Hbegins in Hcheck. discriminate.
  - destruct (includes_split _ _ _ Hrest) as [Hinside|[[u [w [Hu [Hne [Hclause Hw]]]]]|Htail]].
    + congruence.
    + destruct w as [|c w].
      * assert (Hwhole : includes instruction MASK_CLAUSE = true).
        { apply (in_suffixes_includes instruction u); [exact Hu|].
          rewrite Hclause, append_empty_r. apply prefix_refl. }
        congruence.
      * pose proof (proj1 (forallb_forall _ _) clause_does_not_run_into_tail (String c w))
          as Hcheck.
        assert (Hsuffix : In (String c w) (suffixes MASK_CLAUSE)).
        { rewrite Hclause. apply in_suffixes_app. }
        specialize (Hcheck Hsuffix). cbv beta in Hcheck.
        change ("" ++ EDIT_PROMPT_TAIL) with EDIT_PROMPT_TAIL in Hw.
        change (truthy_string (String c w)) with true in Hcheck.
        rewrite Hw in Hcheck. discriminate.
    + vm_compute in Htail. discriminate.
Qed.

Lemma clause_present_with_mask (instruction : string) :
  includes (EDIT_PROMPT_HEAD ++ instruction ++ EDIT_PROMPT_BODY
            ++ MASK_INSTRUCTION ++ EDIT_PROMPT_TAIL)
    MASK_CLAUSE = true.
Proof.
  do 3 apply includes_app_r. vm_compute. reflexivity.
Qed.

Lemma buildEditPrompt_clause (request : EditRequest.t) :
  includes (EditRequest.instruction request) MASK_CLAUSE = false ->
  includes (buildEditPrompt request) MASK_CLAUSE = truthy_opt (EditRequest.maskImage request).
Proof.
  intros Hinstruction. unfold buildEditPrompt.
  destruct (truthy_opt (EditRequest.maskImage request)).
  - apply clause_present_with_mask.
  - now apply clause_absent_without_mask.
Qed.

(** C8, as stated, fails in both directions.  A request without a mask whose
    instruction quotes the clause gets a prompt that contains the clause;
    and a request whose mask is the empty string has a mask, but its prompt
    does not contain the clause. *)
Lemma clause_without_mask_and_mask_without_clause :
  EditRequest.maskImage clause_in_instruction_request = None
  /\ includes (buildEditPrompt clause_in_instruction_request) MASK_CLAUSE = true
  /\ EditRequest.maskImage empty_mask_request = Some ""
  /\ includes (buildEditPrompt empty_mask_request) MASK_CLAUSE = false.
Proof.
  split; [reflexivity|]. split; [vm_compute; reflexivity|].
  split; [reflexivity|vm_compute; reflexivity].
Qed.

(** C8, amended: for every EditRequest whose instruction does not itself
    contain the clause, the prompt text built by [editImage], which is the
    text of the first element of its content list, contains the fixed
    mask-handling clause if and only if [maskImage] is present and not the
    empty string. *)
Theorem mask_clause_iff_nonempty_mask (request : EditRequest.t) :
  includes (EditRequest.instruction request) MASK_CLAUSE = false ->
  hd_error (contents (editImage_parameters request))
  = Some (text_part (buildEditPrompt request))
  /\ (includes (buildEditPrompt request) MASK_CLAUSE = true
      <-> exists mask, EditRequest.maskImage request = Some mask /\ mask <> "").
Proof.
  intros Hinstruction. split.
  - simpl. now rewrite editImage_contents_eq.
  - rewrite (buildEditPrompt_clause request Hinstruction).
    destruct (EditRequest.maskImage request) as [[|c mask]|]; simpl; split.
    + discriminate.
    + intros [mask [Hmask Hne]]. congruence.
    + intros _. exists (String c mask). split; [reflexivity|discriminate].
    + reflexivity.
    + discriminate.
    + intros [mask [Hmask _]]. discriminate.
Qed.

Lemma mask_clause_iff_nonempty_mask_witness :
  includes (EditRequest.instruction sample_edit_request) MASK_CLAUSE = false
  /\ hd_error (contents (editImage_parameters sample_edit_request))
     = Some (text_part (buildEditPrompt sample_edit_request))
  /\ (includes (buildEditPrompt sample_edit_request) MASK_CLAUSE = true
      <-> exists mask, EditRequest.maskImage sample_edit_request = Some mask /\ mask <> "").
Proof.
  split; [reflexivity|].
  apply (mask_clause_iff_nonempty_mask sample_edit_request). reflexivity.
Defined.

(** * Further properties of the service *)

(** ** The API key *)

(** X12: the key handed to the SDK is never falsy: an environment entry that is
    unset, empty or otherwise falsy is replaced by the placeholder
    ["demo-key"], and a truthy entry is used as it is. *)
Theorem API_KEY_fallback (VITE_GEMINI_API_KEY : JsValue) :
  truthy (API_KEY VITE_GEMINI_API_KEY) = true
  /\ (truthy VITE_GEMINI_API_KEY = true -> API_KEY VITE_GEMINI_API_KEY = VITE_GEMINI_API_KEY)
  /\ (truthy VITE_GEMINI_API_KEY = false -> API_KEY VITE_GEMINI_API_KEY = JStr "demo-key").
Proof.
  unfold API_KEY.
  destruct (truthy VITE_GEMINI_API_KEY) eqn:Henv; repeat split;
    try reflexivity; try discriminate; exact Henv.
Qed.

(** ** What generateImage and editImage return *)

Lemma filter_truthy_nonempty (l : list string) :
  Forall (fun d => d <> "") (filter truthy_string l).
Proof.
  apply Forall_forall. intros d Hin. apply filter_In in Hin.
  destruct Hin as [_ Htruthy]. intros ->. discriminate.
Qed.

Lemma data_fields_length (ps : list Part) :
  (List.length (data_fields ps) <= List.length ps)%nat.
Proof.
  induction ps as [|p ps IH]; simpl; [lia|].
  destruct (inline_data p); simpl; lia.
Qed.

Lemma filter_length_le {A : Type} (f : A -> bool) (l : list A) :
  (List.length (filter f l) <= List.length l)%nat.
Proof.
  induction l as [|x l IH]; simpl; [lia|].
  destruct (f x); simpl; lia.
Qed.

Lemma collect_images_bounded (response : GenerateContentResponse) :
  Forall (fun d => d <> "") (collect_images response)
  /\ (List.length (collect_images response) <= List.length (parts_of response))%nat.
Proof.
  rewrite collect_images_filter. split; [apply filter_truthy_nonempty|].
  unfold spec_inline_image_data, parts_of.
  destruct (first_candidate_parts response) as [ps|]; simpl; [|lia].
  pose proof (filter_length_le truthy_string (data_fields ps)).
  pose proof (data_fields_length ps). lia.
Qed.

(** X1: whatever the provider, a list of images returned by [generateImage] or
    [editImage] holds no empty string, and it was read from a response the
    provider resolved that very call with, whose first candidate has at
    least as many parts as there are images. *)
Theorem returned_images_nonempty_and_bounded
    (Number_toString : float -> string)
    (generateContent : GenerateContentParameters -> ProviderOutcome)
    (images : list string) :
  (forall request,
      snd (generateImage Number_toString generateContent request) = Return images ->
      Forall (fun d => d <> "") images
      /\ exists response,
          generateContent (generateImage_parameters request) = Resolved response
          /\ (List.length images <= List.length (parts_of response))%nat)
  /\ (forall request,
      snd (editImage generateContent request) = Return images ->
      Forall (fun d => d <> "") images
      /\ exists response,
          generateContent (editImage_parameters request) = Resolved response
          /\ (List.length images <= List.length (parts_of response))%nat).
Proof.
  split; intros request Hreturned.
  - unfold generateImage in Hreturned.
    destruct (generateContent (generateImage_parameters request)) as [response|error];
      simpl in Hreturned; [|discriminate].
    injection Hreturned as <-.
    destruct (collect_images_bounded response) as [Hnonempty Hbound].
    split; [exact Hnonempty|]. now exists response.
  - unfold editImage in Hreturned.
    destruct (generateContent (editImage_parameters request)) as [response|error];
      simpl in Hreturned; [|discriminate].
    injection Hreturned as <-.
    destruct (collect_images_bounded response) as [Hnonempty Hbound].
    split; [exact Hnonempty|]. now exists response.
Qed.

(** The spec's three-part response: two images out of three parts. *)
Lemma returned_images_nonempty_and_bounded_witness :
  Forall (fun d => d <> "") ["AAAA"; "BBBB"]
  /\ exists response,
      Resolved text_and_two_images_response = Resolved response
      /\ (List.length ["AAAA"; "BBBB"] <= List.length (parts_of response))%nat.
Proof.
  apply (proj1 (returned_images_nonempty_and_bounded no_number_printing
                  (fun _ => Resolved text_and_two_images_response) ["AAAA"; "BBBB"])
               sample_generation_request).
  reflexivity.
Defined.

(** ** Request building against response reading *)

Lemma data_fields_image_parts (images : list string) :
  data_fields (map image_part images) = images.
Proof.
  induction images as [|image images IH]; simpl; [reflexivity|now rewrite IH].
Qed.

Lemma filter_truthy_mask_images (maskImage : option string) :
  filter truthy_string (mask_images maskImage) = mask_images maskImage.
Proof.
  unfold mask_images, nonempty_mask.
  destruct maskImage as [mask|]; [|reflexivity].
  destruct (truthy_string mask) eqn:Hmask; simpl; [now rewrite Hmask|reflexivity].
Qed.

Lemma editImage_contents_images (request : EditRequest.t) :
  editImage_contents request
  = text_part (buildEditPrompt request)
    :: map image_part (EditRequest.originalImage request
                       :: images_of (EditRequest.referenceImages request)
                       ++ mask_images (EditRequest.maskImage request))%list.
Proof.
  rewrite editImage_contents_eq. simpl. do 2 f_equal.
  rewrite map_app. f_equal. unfold mask_images, nonempty_mask.
  destruct (EditRequest.maskImage request) as [mask|]; [|reflexivity].
  now destruct (truthy_string mask).
Qed.

(** X2: request building and response reading use the same part shape: against
    a provider that sends the content list back, [generateImage] returns
    the non-empty reference images of the request, in order, and
    [editImage] returns the non-empty ones among the original image, the
    reference images and the mask, in that order.  The prompt text is never
    taken for an image. *)
Theorem mirrored_contents_round_trip (Number_toString : float -> string) :
  (forall request : GenerationRequest.t,
      generateImage Number_toString mirror_provider request
      = ([], Return (filter truthy_string
                       (images_of (GenerationRequest.referenceImages request)))))
  /\ (forall request : EditRequest.t,
      editImage mirror_provider request
      = ([], Return (filter truthy_string
                       (EditRequest.originalImage request
                        :: images_of (EditRequest.referenceImages request))
                     ++ mask_images (EditRequest.maskImage request))%list)).
Proof.
  split; intros request.
  - unfold generateImage, mirror_provider. rewrite collect_images_filter.
    unfold spec_inline_image_data, response_of_parts. simpl.
    rewrite generateImage_contents_eq. simpl.
    now rewrite data_fields_image_parts.
  - unfold editImage, mirror_provider. rewrite collect_images_filter.
    unfold spec_inline_image_data, response_of_parts. simpl.
    rewrite editImage_contents_images.
    change (data_fields (text_part (buildEditPrompt request) :: ?l))
      with (data_fields l).
    rewrite data_fields_image_parts.
    change (EditRequest.originalImage request
            :: images_of (EditRequest.referenceImages request)
            ++ mask_images (EditRequest.maskImage request))%list
      with ((EditRequest.originalImage request
             :: images_of (EditRequest.referenceImages request))
            ++ mask_images (EditRequest.maskImage request))%list.
    now rewrite filter_app, filter_truthy_mask_images.
Qed.

(** ** Failures: what is logged and what is thrown *)

Lemma call_includes_throws (receiver : JsValue) (needle : string) (e : Exn) :
  call_includes receiver needle = Throw e -> e = TypeErrorNotAFunction.
Proof.
  destruct receiver; simpl; intros H; try discriminate; now injection H as <-.
Qed.

Lemma is_rate_limit_throws (error : JsValue) (e : Exn) :
  is_rate_limit error = Throw e -> e = TypeErrorNotAFunction.
Proof.
  unfold is_rate_limit.
  destruct (strict_equals_number (get (get error "error") "code") 429%float);
    [discriminate|].
  destruct (strict_equals_number (get (get (get error "error") "error") "code") 429%float);
    [discriminate|].
  destruct (strict_equals_number (get error "code") 429%float); [discriminate|].
  destruct (truthy (get (get error "error") "message")); [|discriminate].
  apply call_includes_throws.
Qed.

(** A template literal throws the new Error or the TypeError of the
    conversion, nothing else. *)
Lemma throw_template_cases
    (Number_toString : float -> string) (prefix : string) (message : JsValue) :
  (exists printed, throw_template Number_toString prefix message = NewError (prefix ++ printed))
  \/ throw_template Number_toString prefix message = TypeErrorNotPrimitive.
Proof.
  unfold throw_template.
  destruct (ToString Number_toString message) as [printed|];
    [left; now exists printed|now right].
Qed.

Lemma throw_template_not_raw
    (Number_toString : float -> string) (prefix : string) (message v : JsValue) :
  throw_template Number_toString prefix message <> ThrownValue v.
Proof.
  destruct (throw_template_cases Number_toString prefix message) as [[printed ->]| ->];
    discriminate.
Qed.

Lemma throw_template_not_includes_error
    (Number_toString : float -> string) (prefix : string) (message : JsValue) :
  throw_template Number_toString prefix message <> TypeErrorNotAFunction.
Proof.
  destruct (throw_template_cases Number_toString prefix message) as [[printed ->]| ->];
    discriminate.
Qed.

Lemma generateImage_catch_not_raw
    (Number_toString : float -> string) (error v : JsValue) :
  generateImage_catch Number_toString error <> ThrownValue v.
Proof.
  unfold generateImage_catch.
  destruct (is_rate_limit error) as [[|]|e] eqn:Hcase.
  - discriminate.
  - destruct (truthy (get (get error "error") "message"));
      [apply throw_template_not_raw|].
    destruct (truthy (get (get (get error "error") "error") "message"));
      [apply throw_template_not_raw|].
    destruct (truthy (get error "message")); [apply throw_template_not_raw|discriminate].
  - rewrite (is_rate_limit_throws error e Hcase). discriminate.
Qed.

(** X3: every operation keeps the console and its completion in step, against
    any provider and any [JSON.parse]: a call that returns has logged
    nothing; a call that fails has logged exactly one line, under the
    operation's own label, and throws an exception made by the service or
    by the runtime, never the value the provider or [JSON.parse] threw. *)
Theorem failures_are_logged_and_wrapped
    (Number_toString : float -> string)
    (JSON_parse : string -> Completion JsValue)
    (generateContent : GenerateContentParameters -> ProviderOutcome)
    (generation : GenerationRequest.t) (edit : EditRequest.t)
    (segmentation : SegmentationRequest.t) :
  logged_and_wrapped "Error generating image:"
    (generateImage Number_toString generateContent generation)
  /\ logged_and_wrapped "Error editing image:" (editImage generateContent edit)
  /\ logged_and_wrapped "Error segmenting image:"
       (segmentImage JSON_parse generateContent segmentation).
Proof.
  unfold logged_and_wrapped. split; [|split].
  - unfold generateImage.
    destruct (generateContent (generateImage_parameters generation)) as [response|error];
      simpl; [reflexivity|].
    split; [now exists (ThrownValue error)|]. apply generateImage_catch_not_raw.
  - unfold editImage.
    destruct (generateContent (editImage_parameters edit)) as [response|error];
      simpl; [reflexivity|].
    split; [now exists (ThrownValue error)|]. discriminate.
  - unfold segmentImage.
    destruct (segmentImage_try JSON_parse generateContent segmentation) as [result|caught];
      simpl; [reflexivity|].
    split; [now exists caught|]. discriminate.
Qed.

(** ** The rate-limit branch, exactly *)

Lemma rate_limit_message_differs (Number_toString : float -> string) (message : JsValue) :
  throw_template Number_toString "API Error: " message <> RateLimitExceeded
  /\ throw_template Number_toString "Error: " message <> RateLimitExceeded.
Proof.
  split.
  - destruct (throw_template_cases Number_toString "API Error: " message)
      as [[printed ->]| ->]; [|discriminate].
    intros H. injection H as H. simpl in H. discriminate.
  - destruct (throw_template_cases Number_toString "Error: " message)
      as [[printed ->]| ->]; [|discriminate].
    intros H. injection H as H. simpl in H. discriminate.
Qed.

Lemma is_rate_limit_returns_true (error : JsValue) :
  is_rate_limit error = Return true <->
  carries_429 error \/ mentions_quota (get (get error "error") "message").
Proof.
  unfold is_rate_limit, carries_429, mentions_quota.
  destruct (strict_equals_number (get (get error "error") "code") 429%float);
    [split; [intros _; left; now left|reflexivity]|].
  destruct (strict_equals_number (get (get (get error "error") "error") "code") 429%float);
    [split; [intros _; left; right; now left|reflexivity]|].
  destruct (strict_equals_number (get error "code") 429%float);
    [split; [intros _; left; right; now right|reflexivity]|].
  destruct (get (get error "error") "message") as [| |b|n|m|elems|props] eqn:Hmessage;
    simpl.
  1-4, 7:
    (split;
     [ intros H;
       first [ discriminate
             | match type of H with
               | context [if ?c then _ else _] => destruct c; discriminate
               end ]
     | intros [[H|[H|H]]|[[m' [H _]]|[l [H _]]]]; discriminate ]).
  - split.
    + intros H. destruct (truthy_string m); [|discriminate].
      injection H as H. right; left. exists m. now split.
    + intros [[H|[H|H]]|[[m' [Hm Hquota]]|[l [H _]]]]; try discriminate.
      injection Hm as <-. rewrite (includes_quota_nonempty m Hquota).
      simpl. now rewrite Hquota.
  - split.
    + intros H. injection H as H. right; right. exists elems. now split.
    + intros [[H|[H|H]]|[[m' [H _]]|[l [Hl Hquota]]]]; try discriminate.
      injection Hl as <-. now rewrite Hquota.
Qed.

(** X4: [generateImage] throws the rate-limit error exactly when the caught
    error carries the number 429 at one of the three places, or its
    [error.error.message] is a string that contains "quota" or an array
    with the element "quota"; no other caught error, whatever its messages,
    gives that error. *)
Theorem rate_limit_exactly_when
    (Number_toString : float -> string)
    (generateContent : GenerateContentParameters -> ProviderOutcome)
    (request : GenerationRequest.t) (error : JsValue) :
  generateContent (generateImage_parameters request) = Rejected error ->
  (snd (generateImage Number_toString generateContent request) = Throw RateLimitExceeded
   <-> carries_429 error \/ mentions_quota (get (get error "error") "message")).
Proof.
  intros Hrejected. rewrite <- is_rate_limit_returns_true.
  unfold generateImage. rewrite Hrejected. simpl. unfold generateImage_catch.
  destruct (is_rate_limit error) as [[|]|e] eqn:Hcase.
  - split; reflexivity.
  - split; [|discriminate]. intros H. injection H as H. exfalso.
    destruct (truthy (get (get error "error") "message"));
      [now apply (proj1 (rate_limit_message_differs _ _)) in H|].
    destruct (truthy (get (get (get error "error") "error") "message"));
      [now apply (proj1 (rate_limit_message_differs _ _)) in H|].
    destruct (truthy (get error "message"));
      [now apply (proj2 (rate_limit_message_differs _ _)) in H|].
    discriminate.
  - split; [|discriminate]. intros H. injection H as H.
    rewrite (is_rate_limit_throws error e Hcase) in H. discriminate.
Qed.

(** A 429 given as the string "429" is not a rate limit; a message array
    holding "quota" is. *)
Lemma rate_limit_exactly_when_witness :
  (snd (generateImage no_number_printing (fun _ => Rejected string_code_error)
          sample_generation_request) = Throw RateLimitExceeded
   <-> carries_429 string_code_error
       \/ mentions_quota (get (get string_code_error "error") "message"))
  /\ snd (generateImage no_number_printing (fun _ => Rejected string_code_error)
            sample_generation_request) = Throw (ApiError "Too Many Requests")
  /\ (snd (generateImage no_number_printing (fun _ => Rejected quota_array_error)
             sample_generation_request) = Throw RateLimitExceeded
      <-> carries_429 quota_array_error
          \/ mentions_quota (get (get quota_array_error "error") "message"))
  /\ snd (generateImage no_number_printing (fun _ => Rejected quota_array_error)
            sample_generation_request) = Throw RateLimitExceeded.
Proof.
  split; [|split; [reflexivity|split; [|reflexivity]]].
  - exact (rate_limit_exactly_when no_number_printing (fun _ => Rejected string_code_error)
             sample_generation_request string_code_error eq_refl).
  - exact (rate_limit_exactly_when no_number_printing (fun _ => Rejected quota_array_error)
             sample_generation_request quota_array_error eq_refl).
Defined.

(** ** The TypeError of the catch block, exactly *)

Lemma is_rate_limit_throws_iff (error : JsValue) :
  is_rate_limit error = Throw TypeErrorNotAFunction <->
  ~ carries_429 error
  /\ truthy (get (get error "error") "message") = true
  /\ (forall s, get (get error "error") "message" <> JStr s)
  /\ (forall elems, get (get error "error") "message" <> JArr elems).
Proof.
  unfold is_rate_limit, carries_429.
  destruct (strict_equals_number (get (get error "error") "code") 429%float);
    [split; [discriminate|intros [H _]; exfalso; apply H; now left]|].
  destruct (strict_equals_number (get (get (get error "error") "error") "code") 429%float);
    [split; [discriminate|intros [H _]; exfalso; apply H; right; now left]|].
  destruct (strict_equals_number (get error "code") 429%float);
    [split; [discriminate|intros [H _]; exfalso; apply H; right; now right]|].
  assert (Hnone : ~ (false = true \/ false = true \/ false = true)).
  { intros [H|[H|H]]; discriminate. }
  destruct (get (get error "error") "message") as [| |b|n|m|elems|props]; simpl.
  - split; [discriminate|intros [_ [H _]]; discriminate].
  - split; [discriminate|intros [_ [H _]]; discriminate].
  - destruct b.
    + split; [|reflexivity].
      intros _. repeat split; [exact Hnone|discriminate|discriminate].
    + split; [discriminate|intros [_ [H _]]; discriminate].
  - destruct (negb (PrimFloat.eqb n 0 || PrimFloat.is_nan n)).
    + split; [|reflexivity].
      intros _. repeat split; [exact Hnone|discriminate|discriminate].
    + split; [discriminate|intros [_ [H _]]; discriminate].
  - split.
    + intros H. destruct (truthy_string m); discriminate.
    + intros [_ [_ [H _]]]. now elim (H m).
  - split; [discriminate|]. intros [_ [_ [_ H]]]. now elim (H elems).
  - split; [|reflexivity].
    intros _. repeat split; [exact Hnone|discriminate|discriminate].
Qed.

(** X5: the catch block of [generateImage] fails with a TypeError of its own,
    instead of one of its four messages, exactly when no code is 429 and
    [error.error.message] is truthy but neither a string nor an array: its
    [includes] is then not a function. *)
Theorem catch_block_type_error_exactly_when
    (Number_toString : float -> string)
    (generateContent : GenerateContentParameters -> ProviderOutcome)
    (request : GenerationRequest.t) (error : JsValue) :
  generateContent (generateImage_parameters request) = Rejected error ->
  (snd (generateImage Number_toString generateContent request) = Throw TypeErrorNotAFunction
   <-> ~ carries_429 error
       /\ truthy (get (get error "error") "message") = true
       /\ (forall s, get (get error "error") "message" <> JStr s)
       /\ (forall elems, get (get error "error") "message" <> JArr elems)).
Proof.
  intros Hrejected. rewrite <- is_rate_limit_throws_iff.
  unfold generateImage. rewrite Hrejected. simpl. unfold generateImage_catch.
  destruct (is_rate_limit error) as [[|]|e] eqn:Hcase.
  - split; discriminate.
  - split; [|discriminate]. intros H. injection H as H. exfalso.
    destruct (truthy (get (get error "error") "message"));
      [now apply throw_template_not_includes_error in H|].
    destruct (truthy (get (get (get error "error") "error") "message"));
      [now apply throw_template_not_includes_error in H|].
    destruct (truthy (get error "message"));
      [now apply throw_template_not_includes_error in H|discriminate].
  - rewrite (is_rate_limit_throws error e Hcase). split; reflexivity.
Qed.

(** A numeric message. *)
Lemma catch_block_type_error_exactly_when_witness :
  snd (generateImage no_number_printing (fun _ => Rejected numeric_message_error)
         sample_generation_request) = Throw TypeErrorNotAFunction
  <-> ~ carries_429 numeric_message_error
      /\ truthy (get (get numeric_message_error "error") "message") = true
      /\ (forall s, get (get numeric_message_error "error") "message" <> JStr s)
      /\ (forall elems, get (get numeric_message_error "error") "message" <> JArr elems).
Proof.
  exact (catch_block_type_error_exactly_when no_number_printing
           (fun _ => Rejected numeric_message_error)
           sample_generation_request numeric_message_error eq_refl).
Defined.

(** ** What segmentImage can return *)

(** X6: [segmentImage] makes up no result: a value it returns is what
    [JSON.parse] gave for the non-empty text of the first part of the first
    candidate of a response the provider resolved with, and nothing was
    logged on the way. *)
Theorem segmentImage_returns_only_parsed_text
    (JSON_parse : string -> Completion JsValue)
    (generateContent : GenerateContentParameters -> ProviderOutcome)
    (request : SegmentationRequest.t) (result : JsValue) :
  snd (segmentImage JSON_parse generateContent request) = Return result ->
  fst (segmentImage JSON_parse generateContent request) = []
  /\ exists response t,
      generateContent (segmentImage_parameters request) = Resolved response
      /\ responseText response = Some t
      /\ t <> ""
      /\ JSON_parse t = Return result.
Proof.
  unfold segmentImage, segmentImage_try.
  destruct (generateContent (segmentImage_parameters request)) as [response|error];
    simpl; [|discriminate].
  destruct (responseText response) as [t|] eqn:Htext; simpl; [|discriminate].
  destruct t as [|c t]; simpl; [discriminate|].
  destruct (JSON_parse (String c t)) as [v|e] eqn:Hparse; simpl; [|discriminate].
  intros H. injection H as <-. split; [reflexivity|].
  exists response, (String c t). repeat split; try assumption. discriminate.
Qed.

(** The spec's example response. *)
Lemma segmentImage_returns_only_parsed_text_witness :
  fst (segmentImage JsonLite.parse (fun _ => Resolved masks_response)
         sample_segmentation_request) = []
  /\ exists response t,
      Resolved masks_response = Resolved response
      /\ responseText response = Some t
      /\ t <> ""
      /\ JsonLite.parse t = Return (JObj [("masks", JArr [])]).
Proof.
  apply (segmentImage_returns_only_parsed_text JsonLite.parse (fun _ => Resolved masks_response)
           sample_segmentation_request (JObj [("masks", JArr [])])).
  vm_compute. reflexivity.
Defined.

(** ** The prompts as encodings of the request *)

Lemma length_append (a b : string) :
  String.length (a ++ b) = (String.length a + String.length b)%nat.
Proof.
  induction a as [|c a IH]; simpl; [reflexivity|now rewrite IH].
Qed.

Lemma append_cancel_l (x a b : string) : x ++ a = x ++ b -> a = b.
Proof.
  induction x as [|c x IH]; simpl; intros H; [exact H|].
  injection H as H. now apply IH.
Qed.

Lemma append_cancel_r (a b t : string) : a ++ t = b ++ t -> a = b.
Proof.
  revert b. induction a as [|c a IH]; intros b H.
  - destruct b as [|c' b]; [reflexivity|]. exfalso.
    simpl in H. apply (f_equal String.length) in H.
    simpl in H. rewrite length_append in H. lia.
  - destruct b as [|c' b].
    + exfalso. simpl in H. apply (f_equal String.length) in H.
      simpl in H. rewrite length_append in H. lia.
    + simpl in H. injection H as -> H. f_equal. now apply IH.
Qed.

(** Two ways of cutting one string: the shorter tail is an end of the
    longer one. *)
Lemma shorter_tail_is_suffix (a b s t : string) :
  a ++ s = b ++ t ->
  (String.length t <= String.length s)%nat ->
  In t (suffixes s).
Proof.
  revert b. induction a as [|c a IH]; intros b H Hlength.
  - simpl in H. rewrite H. apply in_suffixes_app.
  - destruct b as [|c' b].
    + exfalso. simpl in H. rewrite <- H in Hlength. simpl in Hlength.
      rewrite length_append in Hlength. lia.
    + simpl in H. injection H as _ H. now apply (IH b).
Qed.

Lemma masked_tail_is_longer :
  (String.length (EDIT_PROMPT_BODY ++ "" ++ EDIT_PROMPT_TAIL)
   <= String.length (EDIT_PROMPT_BODY ++ MASK_INSTRUCTION ++ EDIT_PROMPT_TAIL))%nat.
Proof. apply Nat.leb_le. vm_compute. reflexivity. Qed.

Lemma unmasked_tail_is_no_suffix :
  existsb (String.eqb (EDIT_PROMPT_BODY ++ "" ++ EDIT_PROMPT_TAIL))
    (suffixes (EDIT_PROMPT_BODY ++ MASK_INSTRUCTION ++ EDIT_PROMPT_TAIL)) = false.
Proof. vm_compute. reflexivity. Qed.

Lemma masked_and_unmasked_differ (instruction1 instruction2 : string) :
  instruction1 ++ EDIT_PROMPT_BODY ++ MASK_INSTRUCTION ++ EDIT_PROMPT_TAIL
  <> instruction2 ++ EDIT_PROMPT_BODY ++ "" ++ EDIT_PROMPT_TAIL.
Proof.
  intros H.
  pose proof (shorter_tail_is_suffix _ _ _ _ H masked_tail_is_longer) as Hsuffix.
  pose proof unmasked_tail_is_no_suffix as Hnone.
  assert (Hsome : existsb (String.eqb (EDIT_PROMPT_BODY ++ "" ++ EDIT_PROMPT_TAIL))
                    (suffixes (EDIT_PROMPT_BODY ++ MASK_INSTRUCTION ++ EDIT_PROMPT_TAIL))
                  = true).
  { apply existsb_exists. eexists. split; [exact Hsuffix|apply String.eqb_refl]. }
  congruence.
Qed.

Lemma buildEditPrompt_inj (request1 request2 : EditRequest.t) :
  buildEditPrompt request1 = buildEditPrompt request2 ->
  EditRequest.instruction request1 = EditRequest.instruction request2
  /\ truthy_opt (EditRequest.maskImage request1) = truthy_opt (EditRequest.maskImage request2).
Proof.
  unfold buildEditPrompt. intros H. apply append_cancel_l in H.
  destruct (truthy_opt (EditRequest.maskImage request1)),
           (truthy_opt (EditRequest.maskImage request2)).
  - split; [|reflexivity]. now apply append_cancel_r in H.
  - exfalso. exact (masked_and_unmasked_differ _ _ H).
  - exfalso. exact (masked_and_unmasked_differ _ _ (eq_sym H)).
  - split; [|reflexivity]. now apply append_cancel_r in H.
Qed.

Lemma includes_middle (x needle y : string) : includes (x ++ needle ++ y) needle = true.
Proof.
  apply includes_app_r, prefix_includes, prefix_app.
Qed.

(** X7: the edit prompt carries the instruction verbatim, and it is an exact
    encoding of the instruction and of whether the request has a non-empty
    mask: two requests get the same prompt if and only if they have the same
    instruction and agree on having a non-empty mask.  In particular no
    instruction, whatever it quotes, makes an unmasked request's prompt
    equal to a masked one's. *)
Theorem edit_prompt_encodes_instruction_and_mask (request1 request2 : EditRequest.t) :
  includes (buildEditPrompt request1) (EditRequest.instruction request1) = true
  /\ (buildEditPrompt request1 = buildEditPrompt request2
      <-> EditRequest.instruction request1 = EditRequest.instruction request2
          /\ truthy_opt (EditRequest.maskImage request1)
             = truthy_opt (EditRequest.maskImage request2)).
Proof.
  split; [apply includes_middle|]. split.
  - apply buildEditPrompt_inj.
  - intros [Hinstruction Hmask]. unfold buildEditPrompt. now rewrite Hinstruction, Hmask.
Qed.

(** X8: the segmentation prompt carries the query verbatim between its fixed
    head and its fixed tail, and distinct queries get distinct prompts. *)
Theorem segment_prompt_encodes_query (request1 request2 : SegmentationRequest.t) :
  includes (buildSegmentPrompt request1) (SegmentationRequest.query request1) = true
  /\ String.prefix SEGMENT_PROMPT_HEAD (buildSegmentPrompt request1) = true
  /\ (buildSegmentPrompt request1 = buildSegmentPrompt request2
      <-> SegmentationRequest.query request1 = SegmentationRequest.query request2).
Proof.
  split; [apply includes_middle|]. split; [apply prefix_app|]. split.
  - unfold buildSegmentPrompt. intros H.
    apply append_cancel_l in H. now apply append_cancel_r in H.
  - intros Hquery. unfold buildSegmentPrompt. now rewrite Hquery.
Qed.

(** ** The payload as an encoding of the request *)

Lemma map_image_part_inj (l1 l2 : list string) :
  map image_part l1 = map image_part l2 -> l1 = l2.
Proof.
  revert l2. induction l1 as [|x l1 IH]; intros [|y l2] H; simpl in H;
    try discriminate; [reflexivity|].
  injection H as Hx H. f_equal; [exact Hx|now apply IH].
Qed.

Lemma text_part_inj (t1 t2 : string) : text_part t1 = text_part t2 -> t1 = t2.
Proof. intros H. now injection H. Qed.

Lemma image_part_inj (d1 d2 : string) : image_part d1 = image_part d2 -> d1 = d2.
Proof. intros H. now injection H. Qed.

Lemma cons_inj {A : Type} (x y : A) (l l' : list A) :
  x :: l = y :: l' -> x = y /\ l = l'.
Proof. intros H. injection H as Hx Hl. now split. Qed.

Lemma some_inj {A : Type} (x y : A) : Some x = Some y -> x = y.
Proof. intros H. now injection H. Qed.

Lemma mask_images_inj (l1 l2 : list string) (mask1 mask2 : option string) :
  truthy_opt mask1 = truthy_opt mask2 ->
  (l1 ++ mask_images mask1 = l2 ++ mask_images mask2)%list ->
  l1 = l2 /\ nonempty_mask mask1 = nonempty_mask mask2.
Proof.
  unfold mask_images, nonempty_mask.
  destruct mask1 as [m1|], mask2 as [m2|]; simpl;
    try destruct (truthy_string m1); try destruct (truthy_string m2);
    intros Htruthy H; try discriminate;
    try (rewrite !app_nil_r in H; now split).
  apply app_inj_tail in H. destruct H as [-> ->]. now split.
Qed.

Lemma nonempty_mask_truthy (mask1 mask2 : option string) :
  nonempty_mask mask1 = nonempty_mask mask2 -> truthy_opt mask1 = truthy_opt mask2.
Proof.
  unfold nonempty_mask.
  destruct mask1 as [m1|], mask2 as [m2|]; simpl;
    try destruct (truthy_string m1) eqn:H1; try destruct (truthy_string m2) eqn:H2;
    intros H; try discriminate; try reflexivity.
Qed.

(** X9: the payload of [generateImage] determines the prompt and the list of
    reference images, and nothing else of the request: two requests send the
    same payload if and only if they have the same prompt and the same
    reference images, a missing [referenceImages] counting as the empty
    list. *)
Theorem generateImage_payload_is_faithful (request1 request2 : GenerationRequest.t) :
  generateImage_parameters request1 = generateImage_parameters request2
  <-> GenerationRequest.prompt request1 = GenerationRequest.prompt request2
      /\ images_of (GenerationRequest.referenceImages request1)
         = images_of (GenerationRequest.referenceImages request2).
Proof.
  unfold generateImage_parameters. split.
  - intros H. injection H as H. rewrite !generateImage_contents_eq in H.
    injection H as Hprompt Himages. split; [exact Hprompt|].
    now apply map_image_part_inj.
  - intros [Hprompt Himages]. rewrite !generateImage_contents_eq.
    now rewrite Hprompt, Himages.
Qed.

(** X10: the payload of [editImage] determines the instruction, the original
    image, the list of reference images and the mask, an empty mask
    counting as none: two requests send the same payload if and only if
    they agree on these four. *)
Theorem editImage_payload_is_faithful (request1 request2 : EditRequest.t) :
  editImage_parameters request1 = editImage_parameters request2
  <-> EditRequest.instruction request1 = EditRequest.instruction request2
      /\ EditRequest.originalImage request1 = EditRequest.originalImage request2
      /\ images_of (EditRequest.referenceImages request1)
         = images_of (EditRequest.referenceImages request2)
      /\ nonempty_mask (EditRequest.maskImage request1)
         = nonempty_mask (EditRequest.maskImage request2).
Proof.
  unfold editImage_parameters. split.
  - intros H. apply (f_equal contents) in H. cbn [contents] in H.
    rewrite !editImage_contents_images in H.
    apply cons_inj in H. destruct H as [Hprompt H]. apply text_part_inj in Hprompt.
    cbn [map] in H. apply cons_inj in H. destruct H as [Horiginal Himages].
    apply image_part_inj in Horiginal.
    destruct (buildEditPrompt_inj _ _ Hprompt) as [Hinstruction Htruthy].
    apply map_image_part_inj in Himages.
    destruct (mask_images_inj _ _ _ _ Htruthy Himages) as [Hreferences Hmask].
    repeat split; assumption.
  - intros [Hinstruction [Horiginal [Hreferences Hmask]]].
    rewrite !editImage_contents_images. unfold buildEditPrompt, mask_images.
    now rewrite Hinstruction, Horiginal, Hreferences, Hmask,
      (nonempty_mask_truthy _ _ Hmask).
Qed.

(** X11: the mask travels as one more image: with a non-empty mask, the image
    parts [editImage] sends are those of the request that has no mask and
    lists the mask as its last reference image.  The two payloads differ in
    the prompt text only. *)
Theorem mask_is_sent_as_last_image
    (instruction originalImage mask : string) (referenceImages : option (list string))
    (temperature seed : option float) :
  mask <> "" ->
  let masked :=
    EditRequest.Build_t instruction originalImage referenceImages (Some mask)
      temperature seed in
  let unmasked :=
    EditRequest.Build_t instruction originalImage
      (Some (images_of referenceImages ++ [mask])%list) None temperature seed in
  tl (contents (editImage_parameters masked)) = tl (contents (editImage_parameters unmasked))
  /\ hd_error (contents (editImage_parameters masked))
     <> hd_error (contents (editImage_parameters unmasked)).
Proof.
  intros Hmask masked unmasked.
  assert (Htruthy : truthy_string mask = true).
  { destruct mask; [congruence|reflexivity]. }
  unfold editImage_parameters. cbn [contents].
  rewrite !editImage_contents_images. cbn [tl hd_error]. split.
  - subst masked unmasked.
    cbn [EditRequest.originalImage EditRequest.referenceImages EditRequest.maskImage
         images_of].
    unfold mask_images, nonempty_mask. rewrite Htruthy. now rewrite app_nil_r.
  - intros H. apply some_inj, text_part_inj, buildEditPrompt_inj in H.
    destruct H as [_ H]. subst masked unmasked.
    cbn [EditRequest.maskImage truthy_opt] in H. rewrite Htruthy in H. discriminate.
Qed.

(** The sample request with its mask, and with the mask moved to the end of
    the reference images. *)
Lemma mask_is_sent_as_last_image_witness :
  tl (contents (editImage_parameters sample_edit_request))
  = tl (contents (editImage_parameters
                    (EditRequest.Build_t "make the car blue" "AAAA"
                       (Some ["BBBB"; "MMMM"]) None None None)))
  /\ hd_error (contents (editImage_parameters sample_edit_request))
     <> hd_error (contents (editImage_parameters
                              (EditRequest.Build_t "make the car blue" "AAAA"
                                 (Some ["BBBB"; "MMMM"]) None None None))).
Proof.
  apply (mask_is_sent_as_last_image "make the car blue" "AAAA" "MMMM" (Some ["BBBB"])
           None None).
  discriminate.
Defined.
